(** * Smart Wound-Care Concierge: perception and decision modules

  A shallow embedding of [decision.py] (the rule-based status classifier,
  [compute_delta_pct] and [decide_status]) and of [perception.py]
  ([analyze_image]), with the properties the specification states about
  them.

  Python floats are IEEE binary64 numbers and are modelled by Rocq's
  primitive floats, which are the same format with the same rounding;
  integers are [Z]; metric dictionaries are finite maps from field names
  to Python values; exceptions are an explicit error result. *)

From Stdlib Require Import ZArith Lia Floats Ascii Uint63.
From stdpp Require Import base option list strings gmap pretty.

Set Warnings "-inexact-float".

Local Open Scope Z_scope.

(** ** Python values, exceptions and the builtins the two modules call *)

Module Py.

(** The exceptions the modelled code can raise. [CvError] is OpenCV's
    [cv2.error]. *)
Inductive exn : Set :=
| TypeError
| ValueError
| OverflowError
| ZeroDivisionError
| CvError.

Inductive result (A : Type) : Type :=
| Ok (a : A)
| Raise (e : exn).
Arguments Ok {A} a.
Arguments Raise {A} e.

Definition bind {A B : Type} (r : result A) (k : A -> result B) : result B :=
  match r with
  | Ok a => k a
  | Raise e => Raise e
  end.

Definition is_ok {A : Type} (r : result A) : bool :=
  match r with Ok _ => true | Raise _ => false end.

(** The values a metric dictionary holds: what [analyze_image] stores
    (floats, an int, the mask raster) and JSON's null, which a stored
    record may carry. Strings are left out: [float] of a string runs
    Python's literal parser, which is not modelled. *)
Inductive value : Type :=
| PyFloat (f : float)
| PyInt (n : Z)
| PyNone
| PyRaster (rows : list (list Z)).

(** [float(n)] for an int: the nearest binary64, ties to even;
    [OverflowError] when that is out of range. *)
Definition float_of_int (n : Z) : result float :=
  match binary_normalize prec emax n 0 false with
  | S754_infinity _ => Raise OverflowError
  | sf => Ok (SF2Prim sf)
  end.

(** The builtin [float(x)]. *)
Definition py_float (x : value) : result float :=
  match x with
  | PyFloat f => Ok f
  | PyInt n => float_of_int n
  | PyNone => Raise TypeError
  | PyRaster _ => Raise TypeError
  end.

(** [d.get(key, default)]. *)
Definition get (d : gmap string value) (key : string) (dflt : value) : value :=
  default dflt (d !! key).

(** The builtin [max(a, b)] of two floats: [b] when [b > a], else [a]. *)
Definition py_max (a b : float) : float :=
  if (a <? b)%float then b else a.

(** [a / b] on floats; Python raises on a zero divisor. *)
Definition truediv (a b : float) : result float :=
  if (b =? 0)%float then Raise ZeroDivisionError else Ok (a / b)%float.

(** Truth value of an optional dictionary: [None] and [{}] are false. *)
Definition truthy (d : option (gmap string value)) : bool :=
  match d with
  | None => false
  | Some m => negb (bool_decide (m = ∅))
  end.

(** [math.isfinite(x)]: neither an infinity nor NaN. *)
Definition isfinite (x : float) : bool :=
  match Prim2SF x with
  | S754_zero _ | S754_finite _ _ _ => true
  | _ => false
  end.

(** *** Fixed-point formatting, [format(x, ".<d>f")]

    The decimal expansion is that of the exact binary value, rounded to
    [d] digits after the point, ties to even. *)

Definition round_half_even (num den : Z) : Z :=
  let q := num / den in
  let r := num mod den in
  if 2 * r <? den then q
  else if den <? 2 * r then q + 1
  else if Z.even q then q else q + 1.

(** The magnitude [m * 2^e] scaled by [10^d] and rounded to an integer. *)
Definition scaled_magnitude (d : nat) (m : positive) (e : Z) : Z :=
  let num := Z.pos m * 10 ^ Z.of_nat d in
  if 0 <=? e then num * 2 ^ e else round_half_even num (2 ^ (- e)).

Definition pad_zeros (d : nat) (s : string) : string :=
  String.string_of_list_ascii
    (replicate (d - String.length s)%nat "0"%char) +:+ s.

Definition fixed_digits (d : nat) (n : Z) : string :=
  let p := 10 ^ Z.of_nat d in
  pretty (Z.to_N (n / p)) +:+
  match d with
  | O => ""
  | _ => "." +:+ pad_zeros d (pretty (Z.to_N (n mod p)))
  end.

Definition format_f (d : nat) (x : float) : string :=
  match Prim2SF x with
  | S754_nan => "nan"
  | S754_infinity s => if s then "-inf" else "inf"
  | S754_zero s => (if s then "-" else "") +:+ fixed_digits d 0
  | S754_finite s m e =>
      (if s then "-" else "") +:+ fixed_digits d (scaled_magnitude d m e)
  end.

(** [sep.join(l)]. *)
Fixpoint join (sep : string) (l : list string) : string :=
  match l with
  | [] => ""
  | [s] => s
  | s :: rest => s +:+ sep +:+ join sep rest
  end.

End Py.

Notation "x <- r ;; k" := (Py.bind r (fun x => k))
(at level 100, r at next level, right associativity).

(** ** decision.py *)

Module Decision.
Import Py.

(** Decision thresholds. *)
Definition REDNESS_URGENT : float := 150.0%float.
Definition REDNESS_CONCERNING : float := 120.0%float.
Definition DELTA_URGENT : float := 15.0%float.
Definition DELTA_CONCERNING : float := 5.0%float.
Definition EXUDATE_HIGH : float := 0.08%float.
Definition EXUDATE_MED : float := 0.03%float.

Inductive status : Set := Stable | Monitor | Concerning | Urgent.

Definition status_name (s : status) : string :=
  match s with
  | Stable => "Stable"
  | Monitor => "Monitor"
  | Concerning => "Concerning"
  | Urgent => "Urgent"
  end.

Definition status_eqb (a b : status) : bool :=
  match a, b with
  | Stable, Stable | Monitor, Monitor
  | Concerning, Concerning | Urgent, Urgent => true
  | _, _ => false
  end.

Inductive quality : Set := QualityOk | QualityPoor.

Definition quality_name (q : quality) : string :=
  match q with QualityOk => "ok" | QualityPoor => "poor" end.

(** The dictionary [decide_status] returns. *)
Record decision : Type := {
  d_status : status;
  d_delta_pct : float;
  d_quality : quality;
  d_explanation : string
}.

Definition compute_delta_pct (curr_metrics : gmap string value)
    (prev_metrics : option (gmap string value)) : result float :=
  match prev_metrics with
  | Some prev =>
      if truthy prev_metrics then
        a <- py_float (get prev "area" (PyInt 0)) ;;
        let prev_area := py_max 1.0%float a in
        c <- py_float (get curr_metrics "area" (PyInt 0)) ;;
        q <- truediv (c - prev_area)%float prev_area ;;
        Ok (q * 100.0)%float
      else Ok 0.0%float
  | None => Ok 0.0%float
  end.

(** The running [status] and [reason] variables of [decide_status]. *)
Definition rule_state : Type := status * list string.

(** The image quality check: the quality flag and the initial [reason]. *)
Definition quality_check (blur_var brightness : float) : quality * list string :=
  if (blur_var <? 60.0)%float || (brightness <? 30.0)%float then
    (QualityPoor,
     ["image_quality: blur_var=" +:+ format_f 1 blur_var +:+
      ", brightness=" +:+ format_f 1 brightness])
  else (QualityOk, []).

Definition exudate_rule (exud : float) (st : rule_state) : rule_state :=
  let '(status, reason) := st in
  if (EXUDATE_HIGH <=? exud)%float then
    (Urgent, reason ++ ["high_exudate:" +:+ format_f 3 exud])
  else if (EXUDATE_MED <=? exud)%float && negb (status_eqb status Urgent) then
    (Concerning, reason ++ ["moderate_exudate:" +:+ format_f 3 exud])
  else st.

Definition delta_rule (delta : float) (st : rule_state) : rule_state :=
  let '(status, reason) := st in
  if (DELTA_URGENT <? delta)%float then
    (Urgent, reason ++ ["area_increase_pct:" +:+ format_f 1 delta])
  else if ((DELTA_CONCERNING <? delta)%float && (delta <=? DELTA_URGENT)%float)
          && negb (status_eqb status Urgent) then
    (Concerning, reason ++ ["area_increase_pct:" +:+ format_f 1 delta])
  else if ((-5.0) <=? delta)%float && (delta <=? DELTA_CONCERNING)%float then
    ((if status_eqb status Monitor then Monitor else status),
     reason ++ ["area_change_pct:" +:+ format_f 1 delta])
  else if (delta <? -5.0)%float then
    (Stable, reason ++ ["area_decrease_pct:" +:+ format_f 1 delta])
  else st.

Definition redness_rule (redness : float) (st : rule_state) : rule_state :=
  let '(status, reason) := st in
  if (REDNESS_URGENT <? redness)%float then
    (Urgent, reason ++ ["redness:" +:+ format_f 1 redness])
  else if (REDNESS_CONCERNING <? redness)%float
          && negb (status_eqb status Urgent) then
    (Concerning, reason ++ ["redness:" +:+ format_f 1 redness])
  else st.

Definition explanation_of (reason : list string) : string :=
  match reason with
  | [] => "heuristic_default"
  | _ => join "; " reason
  end.

(** The rule chain of [decide_status] on the five numbers it reads: the
    quality flag and the final [status] and [reason]. *)
Definition run_rules (delta redness exud blur_var brightness : float)
    : quality * rule_state :=
  let '(quality, reason) := quality_check blur_var brightness in
  let st := (Monitor, reason) in
  let st := exudate_rule exud st in
  let st := delta_rule delta st in
  let st := redness_rule redness st in
  (quality, st).

Definition decision_of (delta redness exud blur_var brightness : float) : decision :=
  let '(quality, (status, reason)) :=
    run_rules delta redness exud blur_var brightness in
  {| d_status := status;
     d_delta_pct := delta;
     d_quality := quality;
     d_explanation := explanation_of reason |}.

Definition decide_status (curr_metrics : gmap string value)
    (prev_metrics : option (gmap string value)) : result decision :=
  delta <- compute_delta_pct curr_metrics prev_metrics ;;
  redness <- py_float (get curr_metrics "redness" (PyFloat 0.0)) ;;
  exud <- py_float (get curr_metrics "exudate_ratio" (PyFloat 0.0)) ;;
  blur_var <- py_float (get curr_metrics "blur_var" (PyFloat 0.0)) ;;
  brightness <- py_float (get curr_metrics "brightness" (PyFloat 0.0)) ;;
  Ok (decision_of delta redness exud blur_var brightness).

(** *** Vocabulary for the properties below *)

(** The five fields [decide_status] reads from the current dictionary. *)
Definition metric_fields : list string :=
  ["area"; "redness"; "exudate_ratio"; "blur_var"; "brightness"].

(** A value [float()] accepts. *)
Definition numeric (v : value) : Prop := is_ok (py_float v) = true.

(** Every listed field that is present holds a number. *)
Definition fields_numeric (m : gmap string value) (fields : list string) : Prop :=
  forall k v, k ∈ fields -> m !! k = Some v -> numeric v.

(** Two dictionaries that differ at most in [blur_var] and [brightness]. *)
Definition differ_only_in_quality (m m' : gmap string value) : Prop :=
  forall k, k <> "blur_var" -> k <> "brightness" -> m !! k = m' !! k.

(** Two previous observations that are both absent (or empty) or both
    present, and then differ at most in [blur_var] and [brightness]. *)
Definition same_previous (prev prev' : option (gmap string value)) : Prop :=
  truthy prev = truthy prev' /\
  forall p p', prev = Some p -> prev' = Some p' -> differ_only_in_quality p p'.

(** The [area] fields that are read hold finite numbers. *)
Definition areas_finite (curr : gmap string value)
    (prev : option (gmap string value)) : Prop :=
  (forall c, py_float (get curr "area" (PyInt 0)) = Ok c -> isfinite c = true) /\
  (forall p a, prev = Some p ->
     py_float (get p "area" (PyInt 0)) = Ok a -> isfinite a = true).

(** A tag starts with two characters that are not those of
    ["heuristic_default"]. *)
Definition starts_like_tag (s : string) : bool :=
  match s with
  | String a (String b _) => negb (Ascii.eqb a "h"%char && Ascii.eqb b "e"%char)
  | _ => false
  end.

End Decision.

(** ** perception.py *)

Module Perception.
Import Py.

(** One RGB sample, 8 bits per channel, and a raster as its rows. *)
Definition rgb : Type := Z * Z * Z.
Abbreviation raster A := (list (list A)) (only parsing).

Definition red (p : rgb) : Z := p.1.1.
Definition green (p : rgb) : Z := p.1.2.
Definition blue (p : rgb) : Z := p.2.

(** A PIL image: its pixel data in RGB mode (what [convert("RGB")] gives)
    and the file name it was opened from, which is not pixel data. *)
Record pil_image : Type := {
  im_pixels : raster rgb;
  im_filename : string
}.

(** [img.shape[:2]] and [arr.size]. *)
Definition height {A} (img : raster A) : Z := Z.of_nat (length img).
Definition width {A} (img : raster A) : Z :=
  match img with
  | [] => 0
  | row :: _ => Z.of_nat (length row)
  end.
Definition size {A} (img : raster A) : Z :=
  Z.of_nat (length (concat img)).

(** The OpenCV operations whose arithmetic the repository does not fix:
    the samples [cv2.resize(..., INTER_AREA)] produces for a valid target
    size, the grayscale value [cv2.cvtColor(..., COLOR_RGB2GRAY)] gives a
    pixel, and [cv2.Laplacian(gray, cv2.CV_64F).var()]. *)
Class Cv2 : Type := {
  resize_area : raster rgb -> Z -> Z -> raster rgb;
  rgb2gray : rgb -> Z;
  laplacian_var : raster Z -> float
}.

(** [int(x)] for a float: truncation toward zero. *)
Definition trunc (x : float) : Z :=
  match Prim2SF x with
  | S754_finite s m e =>
      let a := if 0 <=? e then Z.pos m * 2 ^ e else Z.pos m / 2 ^ (- e) in
      if s then - a else a
  | _ => 0
  end.

Definition py_int (x : float) : result Z :=
  match Prim2SF x with
  | S754_nan => Raise ValueError
  | S754_infinity _ => Raise OverflowError
  | _ => Ok (trunc x)
  end.

(** [float(n)] where [n] is a pixel count or a sum of samples. *)
Definition float_of (n : Z) : float :=
  SF2Prim (binary_normalize prec emax n 0 false).

(** [np.sum(cond)], the number of samples that satisfy [cond], and
    [np.mean] of integer samples: their exact sum over their number. *)
Definition count {A} (P : A -> bool) (a : raster A) : Z :=
  Z.of_nat (length (filter (fun x => P x = true) (concat a))).
Definition mean_of (l : list Z) : float :=
  let total := foldr Z.add 0 l in
  let n := Z.of_nat (length l) in
  (float_of total / float_of n)%float.

(** The red-ish pixel test: [red_cond & bright_cond], as 0 or 255. *)
Definition red_cond (p : rgb) : bool :=
  let g := (float_of (green p) * 1.1)%float in
  let b := (float_of (blue p) * 1.1)%float in
  (trunc g <? red p) && (trunc b <? red p) && (70 <? red p).
Definition bright_cond (p : rgb) : bool :=
  let s := float_of (red p + green p + blue p) in
  (30 <? s / 3)%float.
Definition red_pixel (p : rgb) : Z :=
  if red_cond p && bright_cond p then 255 else 0.

(** [cv2.getStructuringElement(cv2.MORPH_ELLIPSE, (7, 7))], as the
    offsets of its nonzero entries from the anchor at the centre. *)
Definition kernel_rows : list (list Z) :=
  [ [0; 0; 0; 1; 0; 0; 0];
    [0; 1; 1; 1; 1; 1; 0];
    [1; 1; 1; 1; 1; 1; 1];
    [1; 1; 1; 1; 1; 1; 1];
    [1; 1; 1; 1; 1; 1; 1];
    [0; 1; 1; 1; 1; 1; 0];
    [0; 0; 0; 1; 0; 0; 0] ].

Definition offsets_of (k : list (list Z)) (anchor : Z) : list (Z * Z) :=
  concat (imap (fun y row =>
    concat (imap (fun x v =>
      if 0 <? v then [(Z.of_nat y - anchor, Z.of_nat x - anchor)] else [])
      row)) k).

Definition kernel : list (Z * Z) := Eval cbv in offsets_of kernel_rows 3.

(** The sample at row [y], column [x]; [None] outside the raster. *)
Definition at_ (m : raster Z) (y x : Z) : option Z :=
  if (0 <=? y) && (0 <=? x) then
    row ← m !! Z.to_nat y; row !! Z.to_nat x
  else None.

Definition neighbours (k : list (Z * Z)) (m : raster Z) (y x : nat) : list Z :=
  omap (fun d => at_ m (Z.of_nat y + d.1) (Z.of_nat x + d.2)) k.

(** [cv2.erode] and [cv2.dilate] with the default border: samples outside
    the raster never lower a minimum nor raise a maximum. *)
Definition erode (k : list (Z * Z)) (m : raster Z) : raster Z :=
  imap (fun y row => imap (fun x _ => foldr Z.min 255 (neighbours k m y x)) row) m.
Definition dilate (k : list (Z * Z)) (m : raster Z) : raster Z :=
  imap (fun y row => imap (fun x _ => foldr Z.max 0 (neighbours k m y x)) row) m.

(** [cv2.morphologyEx] with [MORPH_OPEN] and [MORPH_CLOSE]. *)
Definition morph_open (k : list (Z * Z)) (m : raster Z) : raster Z :=
  dilate k (erode k m).
Definition morph_close (k : list (Z * Z)) (m : raster Z) : raster Z :=
  erode k (dilate k m).

(** The dictionary [analyze_image] returns. *)
Record metrics : Type := {
  area : Z;
  area_pct : float;
  redness : float;
  exudate_ratio : float;
  brightness : float;
  blur_var : float;
  mask : raster Z
}.

Section Analyze.
Context `{Cv2}.

(** [cv2.resize(img, (new_w, new_h), interpolation=cv2.INTER_AREA)]:
    an empty target size is rejected. *)
Definition cv_resize (img : raster rgb) (new_w new_h : Z) : result (raster rgb) :=
  if (new_w <=? 0) || (new_h <=? 0) then Raise CvError
  else Ok (resize_area img new_w new_h).

(** The new width and height of the downscaling branch. *)
Definition scaled_dims (h w target_size : Z) : result (Z * Z) :=
  let max_dim := Z.max h w in
  scale <- truediv (float_of target_size) (float_of max_dim) ;;
  new_w <- py_int (float_of w * scale)%float ;;
  new_h <- py_int (float_of h * scale)%float ;;
  Ok (new_w, new_h).

(** Lines 33 to 41: the RGB array, downscaled when its larger side
    exceeds [target_size]. *)
Definition load (pil_img : pil_image) (target_size : Z) : result (raster rgb) :=
  let img := im_pixels pil_img in
  let h := height img in
  let w := width img in
  let max_dim := Z.max h w in
  if target_size <? max_dim then
    d <- scaled_dims h w target_size ;;
    cv_resize img d.1 d.2
  else Ok img.

(** Lines 43 to 89: the metrics of the array. [cv2.cvtColor] rejects
    an empty array. *)
Definition measure (img : raster rgb) : result metrics :=
  if size img =? 0 then Raise CvError else
  let gray : raster Z := fmap (M := list) rgb2gray <$> img in
  let brightness := mean_of (concat gray) in
  let blur_var := laplacian_var gray in
  let R : raster Z := fmap (M := list) red <$> img in
  let red_mask : raster Z := fmap (M := list) red_pixel <$> img in
  let red_mask := morph_open kernel red_mask in
  let red_mask := morph_close kernel red_mask in
  let total_pixels := size red_mask in
  let area := count (Z.ltb 0) red_mask in
  q <- truediv (float_of area) (float_of total_pixels) ;;
  let area_pct := (q * 100.0)%float in
  let redness :=
    if 0 <? area then
      mean_of (omap (fun rm => if 0 <? rm.2 then Some rm.1 else None)
                    (zip (concat R) (concat red_mask)))
    else mean_of (concat R) in
  e <- truediv (float_of (count (Z.ltb 230) gray)) (float_of total_pixels) ;;
  Ok {| area := area;
        area_pct := area_pct;
        redness := redness;
        exudate_ratio := e;
        brightness := brightness;
        blur_var := blur_var;
        mask := red_mask |}.

Definition analyze_image (pil_img : pil_image) (target_size : Z) : result metrics :=
  img <- load pil_img target_size ;;
  measure img.

End Analyze.

(** [analyze_image(pil_img)] with the default [target_size=512]. *)
Definition default_target_size : Z := 512.

(** The metrics as the dictionary handed to [decide_status]. *)
Definition metrics_dict (m : metrics) : gmap string value :=
  list_to_map
    [ ("area", PyInt (area m));
      ("area_pct", PyFloat (area_pct m));
      ("redness", PyFloat (redness m));
      ("exudate_ratio", PyFloat (exudate_ratio m));
      ("brightness", PyFloat (brightness m));
      ("blur_var", PyFloat (blur_var m));
      ("mask", PyRaster (mask m)) ].

(** A uniform raster of [h] rows and [w] columns. *)
Definition uniform {A} (h w : nat) (c : A) : raster A :=
  replicate h (replicate w c).

(** *** Vocabulary for the properties below *)

(** Two rasters with the same number of rows and the same row lengths. *)
Definition same_shape {A B} (a : raster A) (b : raster B) : Prop :=
  Forall2 (fun r r' => length r = length r') a b.

(** [float_of] through the hardware conversion, for counts below 2^62. *)
Definition float_of_prim (n : Z) : float := of_uint63 (Uint63.of_Z n).

(** The mean of [n] samples that all equal [c] is [c] itself, and [n] does
    not convert to zero. *)
Definition mean_exact_at (c n : Z) : bool :=
  negb (float_of_prim n =? 0)%float &&
  PrimFloat.Leibniz.eqb (float_of_prim (c * n) / float_of_prim n)%float
                        (float_of_prim c).

(** [P] holds of [fuel] consecutive integers from [n] on. *)
Fixpoint all_from (P : Z -> bool) (fuel : nat) (n : Z) : bool :=
  match fuel with
  | O => true
  | S fuel' => if P n then all_from P fuel' (n + 1) else false
  end.

(** The largest pixel count of an image under the default size cap. *)
Definition max_pixels : Z := 512 * 512.

(** The side that a side of [side] pixels is scaled to when the longer
    side is [max_dim]: [int(side * (target_size / max_dim))], through the
    hardware conversion. *)
Definition scaled_side (target_size max_dim side : Z) : Z :=
  trunc (float_of_prim side * (float_of_prim target_size / float_of_prim max_dim))%float.

(** A float that is a zero or a finite number with no positive binary
    exponent, so below [2^53] in magnitude. *)
Definition small (x : float) : bool :=
  match Prim2SF x with
  | S754_zero _ => true
  | S754_finite _ _ e => e <=? 0
  | _ => false
  end.

(** For a longer side of [max_dim] pixels under the default cap: the
    scale exists and is small, and the longer side lands on the cap or one
    below it. *)
Definition lands_on_cap (max_dim : Z) : bool :=
  let s := scaled_side 512 max_dim max_dim in
  negb (float_of_prim max_dim =? 0)%float &&
  small (float_of_prim 512 / float_of_prim max_dim)%float &&
  ((s =? 511) || (s =? 512)).
Definition side_is_small (side : Z) : bool := small (float_of_prim side).

(** The longest side the properties below cover. *)
Definition max_side : Z := 65535.

(** A pixel whose three channels are 8-bit samples. *)
Definition uint8 (p : rgb) : Prop :=
  0 <= red p <= 255 /\ 0 <= green p <= 255 /\ 0 <= blue p <= 255.

(** The red-ish test in integers: red more than 1.1 times green and blue,
    above 70, and a channel mean above 30. *)
Definition red_dominant (p : rgb) : Prop :=
  11 * green p < 10 * red p /\ 11 * blue p < 10 * red p /\
  70 < red p /\ 90 < red p + green p + blue p.

(** A raster of [h] rows that all have [w] samples. *)
Definition rectangular {A} (h w : nat) (a : raster A) : Prop :=
  length a = h /\ Forall (fun row => length row = w) a.

(** A mask whose entries are 0 or 255. *)
Definition binary_mask (m : raster Z) : Prop :=
  Forall (Forall (fun v => v = 0 \/ v = 255)) m.

End Perception.

Import Py Decision Perception.

(** ** Sample inputs *)

Module Samples.

(** A dictionary literal. *)
Definition dict (l : list (string * value)) : gmap string value :=
  list_to_map l.

(** High exudate, low redness, and an area that shrank from 100 to 90. *)
Definition shrinking_curr : gmap string value :=
  dict [ ("area", PyInt 90); ("exudate_ratio", PyFloat 0.09);
         ("redness", PyFloat 50.0);
         ("blur_var", PyFloat 100.0); ("brightness", PyFloat 100.0) ].
Definition area_100 : gmap string value := dict [ ("area", PyInt 100) ].

(** An area that grew from 100 to 120. *)
Definition growing_curr : gmap string value := dict [ ("area", PyInt 120) ].

(** Redness 160, everything else neutral, a sharp and bright capture. *)
Definition red_curr : gmap string value :=
  dict [ ("area", PyInt 0); ("exudate_ratio", PyFloat 0.0);
         ("redness", PyFloat 160.0);
         ("blur_var", PyFloat 100.0); ("brightness", PyFloat 100.0) ].

(** The same capture, blurred and dark. *)
Definition red_curr_blurred : gmap string value :=
  <["blur_var" := PyFloat 10.0]> (<["brightness" := PyFloat 5.0]> red_curr).

(** A record whose redness was stored as null. *)
Definition null_redness : gmap string value := dict [ ("redness", PyNone) ].

(** A previous record whose area is infinite. *)
Definition area_inf : gmap string value :=
  dict [ ("area", PyFloat infinity) ].
Definition sharp_curr : gmap string value :=
  dict [ ("area", PyInt 0);
         ("blur_var", PyFloat 100.0); ("brightness", PyFloat 100.0) ].

(** An OpenCV stand-in to run [analyze_image] with: the grayscale weights
    of OpenCV 4, a resize that repeats the first sample, and a flat
    Laplacian. *)
Definition cv_sample : Cv2 := {|
  resize_area img new_w new_h :=
    uniform (Z.to_nat new_h) (Z.to_nat new_w)
      (default (0, 0, 0) (head (concat img)));
  rgb2gray p :=
    Z.shiftr (red p * 9798 + green p * 19235 + blue p * 3735 + 16384) 15;
  laplacian_var g := 0%float
|}.

Definition gray_128 : rgb := (128, 128, 128).

Definition image (pixels : raster rgb) : pil_image :=
  {| im_pixels := pixels; im_filename := "wound.png" |}.

End Samples.

(** ** Severity of a status *)

Module Severity.

(** The four statuses from mildest to most severe. *)
Definition severity (s : status) : Z :=
  match s with
  | Stable => 0
  | Monitor => 1
  | Concerning => 2
  | Urgent => 3
  end.

(** The status each rule leaves, as an expression of the status it finds. *)
Definition raise_to_concerning (s : status) : status :=
  match s with Urgent => Urgent | _ => Concerning end.

Definition exudate_status (exud : float) : status :=
  if (0.08 <=? exud)%float then Urgent
  else if (0.03 <=? exud)%float then Concerning else Monitor.

Definition delta_status (delta : float) (s : status) : status :=
  if (delta <? -5.0)%float then Stable
  else if (15.0 <? delta)%float then Urgent
  else if ((5.0 <? delta)%float && (delta <=? 15.0)%float)%bool
       then raise_to_concerning s
  else s.

Definition redness_status (redness : float) (s : status) : status :=
  if (150.0 <? redness)%float then Urgent
  else if (120.0 <? redness)%float then raise_to_concerning s
  else s.

End Severity.

Import Severity.

(** ** action.py: text wrapping and the UPDATE statement *)

Module Action.

(** In this module a Python [str] is the list of its characters, each a
    code point below 256. *)
Abbreviation str := (list ascii) (only parsing).

(** The characters of a string literal. *)
Definition chars (s : string) : str := String.list_ascii_of_string s.

(** [c.isspace()]: tab to carriage return, the four separators 28 to 31,
    space, next line (133) and no-break space (160). *)
Definition is_space (c : ascii) : bool :=
  let n := nat_of_ascii c in
  ((9 <=? n) && (n <=? 13) || (28 <=? n) && (n <=? 32)
   || (n =? 133) || (n =? 160))%nat.

(** [s.split()]: the maximal runs of characters that are not whitespace.
    [word] is the run being read. *)
Fixpoint split_from (word : str) (s : str) : list str :=
  match s with
  | [] => match word with [] => [] | _ => [word] end
  | c :: s' =>
      if is_space c then
        match word with
        | [] => split_from [] s'
        | _ => word :: split_from [] s'
        end
      else split_from (word ++ [c]) s'
  end.

Definition str_split (s : str) : list str := split_from [] s.

(** [s.lstrip()], [s.rstrip()] and [s.strip()]. *)
Fixpoint lstrip (s : str) : str :=
  match s with
  | [] => []
  | c :: s' => if is_space c then lstrip s' else s
  end.

Fixpoint rstrip (s : str) : str :=
  match s with
  | [] => []
  | c :: s' =>
      match rstrip s' with
      | [] => if is_space c then [] else [c]
      | r => c :: r
      end
  end.

Definition str_strip (s : str) : str := rstrip (lstrip s).

Definition space : ascii := ascii_of_nat 32.

(** The loop of [_wrap_text], lines 313 to 320: the lines yielded from the
    current [line] on. *)
Fixpoint wrap_loop (max_chars : Z) (line : str) (words : list str) : list str :=
  match words with
  | [] => match line with [] => [] | _ => [line] end
  | w :: rest =>
      if Z.of_nat (length line) + Z.of_nat (length w) + 1 <=? max_chars then
        wrap_loop max_chars (str_strip (line ++ [space] ++ w)) rest
      else line :: wrap_loop max_chars w rest
  end.

(** The lines the generator yields, in order. *)
Definition _wrap_text (text : str) (max_chars : Z) : list str :=
  match str_split text with
  | [] => [[]]
  | words => wrap_loop max_chars [] words
  end.

(** A word: not empty, no whitespace in it. *)
Definition is_word (w : str) : Prop :=
  w <> [] /\ Forall (fun c => is_space c = false) w.

(** Lines 112 to 118 of [update_record_sqlite]: the statement and the
    values bound to it, for the fields in the order the dictionary yields
    them. *)
Definition update_statement {V} (fields : list (string * V)) (record_id : V)
    : string * list V :=
  let cols := (fun kv => kv.1 +:+ " = ?") <$> fields in
  let vals := (snd <$> fields) ++ [record_id] in
  ("UPDATE records SET " +:+ join ", " cols +:+ " WHERE id = ?", vals).

(** The number of occurrences of a character in a string. *)
Fixpoint count_char (c : ascii) (s : string) : nat :=
  match s with
  | EmptyString => 0
  | String a s' => (if Ascii.eqb a c then 1 else 0) + count_char c s'
  end.

End Action.

(** ** llm.py: the rationale without a model *)

Module Llm.

(** [s.lower()] on the letters A to Z. *)
Definition lower_char (c : ascii) : ascii :=
  let n := nat_of_ascii c in
  if ((65 <=? n) && (n <=? 90))%nat then ascii_of_nat (n + 32) else c.

Fixpoint lower (s : string) : string :=
  match s with
  | EmptyString => EmptyString
  | String c s' => String (lower_char c) (lower s')
  end.

(** [needle in hay]. *)
Fixpoint contains (needle hay : string) : bool :=
  String.prefix needle hay ||
  match hay with
  | EmptyString => false
  | String _ hay' => contains needle hay'
  end.

Definition newline : string := String (ascii_of_nat 10) EmptyString.

Definition urgent_advice : list string :=
  [ "This wound may be infected or require urgent assessment. Contact a clinician promptly.";
    "Suggested next steps:";
    "- Seek urgent clinical review or primary care contact.";
    "- Keep the area clean and avoid applying unprescribed treatments.";
    "- If there is spreading redness, fever, or increasing pain, go to emergency care." ].

Definition routine_advice : list string :=
  [ "The wound appears stable. Continue local wound care and monitor for changes.";
    "Suggested next steps:";
    "- Clean with saline and apply a clean dressing daily.";
    "- Monitor for increased redness, swelling, or discharge.";
    "- Follow up with your clinician within 3â€“7 days or sooner if concerned." ].

(** Lines 78 to 96 of [generate_llm_rationale], reached when no API key is
    set or the request fails. [status] is what the decision dictionary
    holds under ["status"], when it holds a string there. *)
Definition fallback_lines (status : option string) : list string :=
  let status := default "Unknown" status in
  let s := lower status in
  ("Status: " +:+ status +:+ ".") ::
  (if contains "infect" s || contains "high" s || contains "urgent" s
   then urgent_advice else routine_advice).

Definition fallback_rationale (status : option string) : string :=
  join newline (fallback_lines status).

End Llm.

(** ** app.py: one analysis *)

Module App.

(** Lines 367 to 380 of the Analyze button: measure the image with the
    default size cap, turn the result into the serialisable dictionary and
    classify it against the metrics of the latest timeline entry, if any. *)
Definition analyze_and_decide `{Cv2} (pil : pil_image)
    (prev : option (gmap string value)) : result (metrics * decision) :=
  m <- analyze_image pil default_target_size ;;
  d <- decide_status (metrics_dict m) prev ;;
  Ok (m, d).

(** The float [+0.0], told apart from [-0.0]. *)
Definition positive_zero (x : float) : bool :=
  match Prim2SF x with
  | S754_zero false => true
  | _ => false
  end.

(** The area change [compute_delta_pct] computes between two dictionaries
    that hold the same integer [area], through the hardware conversion. *)
Definition unchanged_delta (n : Z) : float :=
  let a := float_of_prim n in
  ((a - py_max 1.0 a) / py_max 1.0 a * 100.0)%float.
Definition steady_area (n : Z) : bool :=
  isfinite (float_of_prim n) && positive_zero (unchanged_delta n).

End App.

Import Action Llm App.

(** * Properties *)

(** ** The order of binary64 numbers

  Python compares floats as IEEE 754 does; the facts used below are read
  off the primitive comparisons through their specification on
  [spec_float]. *)

Section FloatOrder.

Local Ltac cmp_cases :=
  repeat match goal with
  | |- context [Z.compare ?a ?b] => destruct (Z.compare_spec a b)
  | H : context [Z.compare ?a ?b] |- _ => destruct (Z.compare_spec a b)
  | |- context [Pos.compare_cont Eq ?a ?b] =>
      change (Pos.compare_cont Eq a b) with (Pos.compare a b);
      destruct (Pos.compare_spec a b)
  | H : context [Pos.compare_cont Eq ?a ?b] |- _ =>
      change (Pos.compare_cont Eq a b) with (Pos.compare a b) in H;
      destruct (Pos.compare_spec a b)
  end;
  subst; simpl in *; try congruence; try lia.

Lemma SFcompare_antisym (x y : spec_float) :
  SFcompare y x = option_map CompOpp (SFcompare x y).
Proof.
  destruct x as [[]|[]| |[] m1 e1], y as [[]|[]| |[] m2 e2];
    simpl; try reflexivity; f_equal; cmp_cases.
Qed.

Lemma SFcompare_refl (x : spec_float) :
  x <> S754_nan -> SFcompare x x = Some Eq.
Proof.
  destruct x as [[]|[]| |[] m e]; simpl; try congruence; intros _;
    rewrite Z.compare_refl; change (Pos.compare_cont Eq m m) with (Pos.compare m m);
    rewrite Pos.compare_refl; reflexivity.
Qed.

Lemma SFcompare_lt_trans (x y z : spec_float) :
  SFcompare x y = Some Lt -> SFcompare y z = Some Lt -> SFcompare x z = Some Lt.
Proof.
  destruct x as [[]|[]| |[] m1 e1], y as [[]|[]| |[] m2 e2], z as [[]|[]| |[] m3 e3];
    simpl; try congruence; intros H1 H2; f_equal;
    injection H1 as H1; injection H2 as H2; cmp_cases.
Qed.

Lemma SFcompare_lt_eq (x y z : spec_float) :
  SFcompare x y = Some Lt -> SFcompare y z = Some Eq -> SFcompare x z = Some Lt.
Proof.
  destruct x as [[]|[]| |[] m1 e1], y as [[]|[]| |[] m2 e2], z as [[]|[]| |[] m3 e3];
    simpl; try congruence; intros H1 H2; f_equal;
    injection H1 as H1; injection H2 as H2; cmp_cases.
Qed.

Lemma SFcompare_None (x y : spec_float) :
  SFcompare x y = None <-> x = S754_nan \/ y = S754_nan.
Proof.
  destruct x as [[]|[]| |[] m1 e1], y as [[]|[]| |[] m2 e2]; simpl;
    split; intros; try congruence; try tauto; intuition congruence.
Qed.

End FloatOrder.

Section FloatCompare.
Local Open Scope float_scope.

Lemma ltb_compare (x y : float) :
  (x <? y) = true <-> SFcompare (Prim2SF x) (Prim2SF y) = Some Lt.
Proof.
  rewrite FloatAxioms.ltb_spec. unfold SFltb.
  destruct (SFcompare _ _) as [[]|]; split; congruence.
Qed.

Lemma eqb_compare (x y : float) :
  (x =? y) = true <-> SFcompare (Prim2SF x) (Prim2SF y) = Some Eq.
Proof.
  rewrite FloatAxioms.eqb_spec. unfold SFeqb.
  destruct (SFcompare _ _) as [[]|]; split; congruence.
Qed.

Lemma leb_compare (x y : float) :
  (x <=? y) = true <->
  SFcompare (Prim2SF x) (Prim2SF y) = Some Lt \/
  SFcompare (Prim2SF x) (Prim2SF y) = Some Eq.
Proof.
  rewrite FloatAxioms.leb_spec. unfold SFleb.
  destruct (SFcompare _ _) as [[]|]; split; intros; try tauto;
    try congruence; intuition congruence.
Qed.

Lemma is_nan_spec (x : float) :
  is_nan x = false <-> Prim2SF x <> S754_nan.
Proof.
  unfold is_nan. rewrite Bool.negb_false_iff, eqb_compare. split.
  - intros H E. rewrite E in H. discriminate.
  - apply SFcompare_refl.
Qed.

Lemma ltb_trans (x y z : float) :
  (x <? y) = true -> (y <? z) = true -> (x <? z) = true.
Proof. rewrite !ltb_compare. apply SFcompare_lt_trans. Qed.

Lemma ltb_eqb_trans (x y z : float) :
  (x <? y) = true -> (y =? z) = true -> (x <? z) = true.
Proof. rewrite !ltb_compare, eqb_compare. apply SFcompare_lt_eq. Qed.

Lemma ltb_leb_trans (x y z : float) :
  (x <? y) = true -> (y <=? z) = true -> (x <? z) = true.
Proof.
  rewrite !ltb_compare, leb_compare. intros H [H'|H'].
  - eapply SFcompare_lt_trans; eauto.
  - eapply SFcompare_lt_eq; eauto.
Qed.

(** [x < y] excludes [y <= x]. *)
Lemma ltb_not_leb (x y : float) :
  (x <? y) = true -> (y <=? x) = false.
Proof.
  rewrite ltb_compare. intros H.
  apply Bool.not_true_is_false. rewrite leb_compare.
  rewrite (SFcompare_antisym (Prim2SF x) (Prim2SF y)), H. simpl.
  intros [?|?]; discriminate.
Qed.

Lemma leb_not_ltb (x y : float) :
  (x <=? y) = true -> (y <? x) = false.
Proof.
  intros H. apply Bool.not_true_is_false. intros H'.
  apply ltb_not_leb in H'. congruence.
Qed.

(** Two numbers that are not NaN are comparable. *)
Lemma not_ltb_leb (x y : float) :
  is_nan x = false -> is_nan y = false ->
  (x <? y) = false -> (y <=? x) = true.
Proof.
  rewrite !is_nan_spec. intros Hx Hy H.
  apply leb_compare. rewrite (SFcompare_antisym (Prim2SF x) (Prim2SF y)).
  destruct (SFcompare (Prim2SF x) (Prim2SF y)) as [[]|] eqn:E; simpl; auto.
  - apply ltb_compare in E. congruence.
  - apply SFcompare_None in E. tauto.
Qed.

Lemma not_leb_ltb (x y : float) :
  is_nan x = false -> is_nan y = false ->
  (x <=? y) = false -> (y <? x) = true.
Proof.
  intros Hx Hy H. destruct (y <? x) eqn:E; [reflexivity|].
  apply not_ltb_leb in E; auto. congruence.
Qed.

End FloatCompare.

(** ** Arithmetic that cannot produce NaN

    Rounding a non-negative magnitude gives a zero, a finite number or an
    infinity, so NaN only comes from the special cases of an operation. *)

Section NotNan.

Lemma shr_1_nonneg (mrs : shr_record) :
  0 <= shr_m mrs -> 0 <= shr_m (shr_1 mrs).
Proof. destruct mrs as [[|[p|p|]|[p|p|]] r s]; simpl; lia. Qed.

Lemma iter_shr_1_nonneg (p : positive) (mrs : shr_record) :
  0 <= shr_m mrs -> 0 <= shr_m (SpecFloat.iter_pos shr_1 p mrs).
Proof.
  revert mrs. induction p as [p IH|p IH|]; simpl; intros mrs Hm.
  - apply IH, IH, shr_1_nonneg, Hm.
  - apply IH, IH, Hm.
  - apply shr_1_nonneg, Hm.
Qed.

Lemma shr_fexp_nonneg (m e : Z) (l : location) :
  0 <= m -> 0 <= shr_m (shr_fexp prec emax m e l).1.
Proof.
  intros Hm. unfold shr_fexp, shr.
  assert (H0 : 0 <= shr_m (shr_record_of_loc m l))
    by (destruct l as [|[]]; exact Hm).
  destruct (fexp prec emax (Zdigits2 m + e) - e); simpl; auto.
  by apply iter_shr_1_nonneg.
Qed.

Lemma round_nearest_even_nonneg (m : Z) (l : location) :
  0 <= m -> 0 <= round_nearest_even m l.
Proof.
  intros Hm. destruct l as [|[]]; simpl; try destruct (Z.even m); lia.
Qed.

Lemma binary_round_aux_not_nan (s : bool) (m e : Z) (l : location) :
  0 <= m -> binary_round_aux prec emax s m e l <> S754_nan.
Proof.
  intros Hm. unfold binary_round_aux.
  pose proof (shr_fexp_nonneg m e l Hm) as H1.
  destruct (shr_fexp prec emax m e l) as [mrs' e']. simpl in H1.
  pose proof (shr_fexp_nonneg _ e' loc_Exact
    (round_nearest_even_nonneg _ (loc_of_shr_record mrs') H1)) as H2.
  destruct (shr_fexp prec emax _ e' loc_Exact) as [mrs'' e'']. simpl in H2.
  destruct (shr_m mrs''); [discriminate| |lia].
  destruct (e'' <=? emax - prec); discriminate.
Qed.

Lemma binary_normalize_not_nan (m e : Z) (s : bool) :
  binary_normalize prec emax m e s <> S754_nan.
Proof.
  destruct m; simpl; [discriminate| |]; unfold binary_round;
    destruct (shl_align _ _ _); apply binary_round_aux_not_nan; lia.
Qed.

(** A difference of finite numbers. *)
Lemma SFsub_finite (x y : spec_float) :
  (forall s, x <> S754_infinity s) -> x <> S754_nan ->
  (forall s, y <> S754_infinity s) -> y <> S754_nan ->
  SF64sub x y <> S754_nan.
Proof.
  intros Hx Hxn Hy Hyn. unfold SF64sub.
  destruct x as [sx|sx| |sx mx ex]; try congruence; try (by destruct (Hx sx));
  destruct y as [sy|sy| |sy my ey]; try congruence; try (by destruct (Hy sy));
    simpl; try discriminate.
  - destruct sx, sy; discriminate.
  - apply binary_normalize_not_nan.
Qed.

(** A quotient by a positive finite number. *)
Lemma SFdiv_positive (x : spec_float) (m : positive) (e : Z) :
  x <> S754_nan -> SF64div x (S754_finite false m e) <> S754_nan.
Proof.
  intros Hx. unfold SF64div.
  destruct x as [sx|sx| |sx mx ex]; try congruence; simpl; try discriminate.
  unfold SFdiv_core_binary.
  set (s := ex - e - _). set (m' := match s with 0 => _ | _ => _ end).
  assert (Hm' : 0 <= m').
  { unfold m'. destruct s; try lia. apply Z.shiftl_nonneg. lia. }
  pose proof (Z.div_pos m' (Z.pos m) Hm' ltac:(lia)) as Hq.
  unfold Z.div in Hq. destruct (Z.div_eucl m' (Z.pos m)) as [q r].
  by apply binary_round_aux_not_nan.
Qed.

(** A product with a finite number that is not zero. *)
Lemma SFmul_finite (x : spec_float) (s : bool) (m : positive) (e : Z) :
  x <> S754_nan -> SF64mul x (S754_finite s m e) <> S754_nan.
Proof.
  intros Hx. unfold SF64mul.
  destruct x as [sx|sx| |sx mx ex]; try congruence; simpl; try discriminate.
  apply binary_round_aux_not_nan. lia.
Qed.

End NotNan.

(** ** The rule chain of [decide_status] *)

Section Rules.
Local Open Scope float_scope.

Local Ltac absurd_order :=
  match goal with
  | H1 : (?a <? ?x) = true, H2 : (?x <? ?b) = true |- _ =>
      pose proof (ltb_trans a x b H1 H2); discriminate
  | H1 : (?a <? ?x) = true, H2 : (?x <=? ?b) = true |- _ =>
      pose proof (ltb_leb_trans a x b H1 H2); discriminate
  end.

(** A shrinking area resets the running status, whatever it was. *)
Lemma delta_rule_decrease (delta : float) (status : status) (reason : list string) :
  (delta <? -5.0) = true ->
  delta_rule delta (status, reason) =
    (Stable, reason ++ ["area_decrease_pct:" +:+ format_f 1 delta]).
Proof.
  intros H. unfold delta_rule, DELTA_URGENT, DELTA_CONCERNING.
  destruct (15.0 <? delta) eqn:E1; [absurd_order|].
  destruct (5.0 <? delta) eqn:E2; [absurd_order|].
  rewrite (ltb_not_leb _ _ H), H. reflexivity.
Qed.

(** A change within five percent only leaves a tag. *)
Lemma delta_rule_steady (delta : float) (status : status) (reason : list string) :
  (-5.0 <=? delta) = true -> (delta <=? 5.0) = true ->
  delta_rule delta (status, reason) =
    (status, reason ++ ["area_change_pct:" +:+ format_f 1 delta]).
Proof.
  intros H1 H2. unfold delta_rule, DELTA_URGENT, DELTA_CONCERNING.
  destruct (15.0 <? delta) eqn:E1; [absurd_order|].
  rewrite (leb_not_ltb _ _ H2), H1, H2. simpl.
  destruct status; reflexivity.
Qed.


(** Redness at or below the lower threshold changes nothing. *)
Lemma redness_rule_quiet (redness : float) (st : rule_state) :
  (REDNESS_CONCERNING <? redness) = false -> redness_rule redness st = st.
Proof.
  unfold redness_rule, REDNESS_CONCERNING, REDNESS_URGENT.
  intros H. destruct st as [status reason].
  destruct (150.0 <? redness) eqn:E.
  - assert ((120.0 <? redness) = true) by (eapply ltb_trans; [|exact E]; reflexivity).
    congruence.
  - rewrite H. reflexivity.
Qed.

(** No rule reads the tags collected so far: the status a rule leaves
    depends on the status it finds only. *)
Lemma exudate_rule_status (exud : float) (status : status) (r r' : list string) :
  (exudate_rule exud (status, r)).1 = (exudate_rule exud (status, r')).1.
Proof.
  unfold exudate_rule.
  destruct (EXUDATE_HIGH <=? exud); [reflexivity|].
  destruct ((EXUDATE_MED <=? exud) && negb (status_eqb status Urgent))%bool;
    reflexivity.
Qed.

Lemma delta_rule_status (delta : float) (status : status) (r r' : list string) :
  (delta_rule delta (status, r)).1 = (delta_rule delta (status, r')).1.
Proof.
  unfold delta_rule.
  repeat match goal with
  | |- context [if ?b then _ else _] => destruct b; try reflexivity
  end.
Qed.

Lemma redness_rule_status (redness : float) (status : status) (r r' : list string) :
  (redness_rule redness (status, r)).1 = (redness_rule redness (status, r')).1.
Proof.
  unfold redness_rule.
  repeat match goal with
  | |- context [if ?b then _ else _] => destruct b; try reflexivity
  end.
Qed.

(** Every rule extends the tag list it is given. *)
Lemma exudate_rule_reason (exud : float) (st : rule_state) :
  exists tags, (exudate_rule exud st).2 = st.2 ++ tags.
Proof.
  destruct st as [status r]. unfold exudate_rule.
  repeat match goal with
  | |- context [if ?b then _ else _] => destruct b
  end; simpl; eauto. exists []. by rewrite app_nil_r.
Qed.

Lemma delta_rule_reason (delta : float) (st : rule_state) :
  exists tags, (delta_rule delta st).2 = st.2 ++ tags.
Proof.
  destruct st as [status r]. unfold delta_rule.
  repeat match goal with
  | |- context [if ?b then _ else _] => destruct b
  end; simpl; eauto. exists []. by rewrite app_nil_r.
Qed.

Lemma redness_rule_reason (redness : float) (st : rule_state) :
  exists tags, (redness_rule redness st).2 = st.2 ++ tags.
Proof.
  destruct st as [status r]. unfold redness_rule.
  repeat match goal with
  | |- context [if ?b then _ else _] => destruct b
  end; simpl; eauto. exists []. by rewrite app_nil_r.
Qed.

End Rules.

(** ** [decide_status] *)

Section DecideStatus.
Local Open Scope float_scope.
Implicit Types (curr : gmap string value) (prev : option (gmap string value)).

(** What a returned decision was computed from. *)
Lemma decide_status_inv curr prev (d : decision) :
  decide_status curr prev = Ok d ->
  exists delta redness exud blur_var brightness,
    compute_delta_pct curr prev = Ok delta /\
    py_float (get curr "redness" (PyFloat 0.0)) = Ok redness /\
    py_float (get curr "exudate_ratio" (PyFloat 0.0)) = Ok exud /\
    py_float (get curr "blur_var" (PyFloat 0.0)) = Ok blur_var /\
    py_float (get curr "brightness" (PyFloat 0.0)) = Ok brightness /\
    d = decision_of delta redness exud blur_var brightness.
Proof.
  unfold decide_status. intros H.
  destruct (compute_delta_pct curr prev) as [delta|]; [|discriminate].
  destruct (py_float (get curr "redness" _)) as [redness|]; [|discriminate].
  destruct (py_float (get curr "exudate_ratio" _)) as [exud|]; [|discriminate].
  destruct (py_float (get curr "blur_var" _)) as [blur_var|]; [|discriminate].
  destruct (py_float (get curr "brightness" _)) as [brightness|]; [|discriminate].
  simpl in H. injection H as <-.
  exists delta, redness, exud, blur_var, brightness. repeat split.
Qed.

Lemma decide_fields (delta redness exud blur_var brightness : float) :
  let r := run_rules delta redness exud blur_var brightness in
  decision_of delta redness exud blur_var brightness =
    {| d_status := r.2.1; d_delta_pct := delta; d_quality := r.1;
       d_explanation := explanation_of r.2.2 |}.
Proof.
  unfold decision_of. destruct (run_rules _ _ _ _ _) as [q [st r]]. reflexivity.
Qed.

Lemma run_rules_unfold (delta redness exud blur_var brightness : float) :
  run_rules delta redness exud blur_var brightness =
    ((quality_check blur_var brightness).1,
     redness_rule redness (delta_rule delta
       (exudate_rule exud (Monitor, (quality_check blur_var brightness).2)))).
Proof.
  unfold run_rules. destruct (quality_check _ _). reflexivity.
Qed.

Lemma decide_status_ok curr prev (delta redness exud blur_var brightness : float) :
  compute_delta_pct curr prev = Ok delta ->
  py_float (get curr "redness" (PyFloat 0.0)) = Ok redness ->
  py_float (get curr "exudate_ratio" (PyFloat 0.0)) = Ok exud ->
  py_float (get curr "blur_var" (PyFloat 0.0)) = Ok blur_var ->
  py_float (get curr "brightness" (PyFloat 0.0)) = Ok brightness ->
  decide_status curr prev = Ok (decision_of delta redness exud blur_var brightness).
Proof.
  intros H1 H2 H3 H4 H5. unfold decide_status.
  rewrite H1, H2, H3, H4, H5. reflexivity.
Qed.

(** The floor [max(1.0, a)] is never zero. *)
Lemma py_max_one_nonzero (a : float) : (py_max 1.0 a =? 0.0) = false.
Proof.
  unfold py_max. destruct (1.0 <? a) eqn:E; [|reflexivity].
  destruct (a =? 0.0) eqn:E0; [|reflexivity].
  pose proof (ltb_eqb_trans _ _ _ E E0). discriminate.
Qed.

Lemma lookup_nonempty (m : gmap string value) (k : string) (v : value) :
  m !! k = Some v -> m <> ∅.
Proof. intros H ->. rewrite lookup_empty in H. discriminate. Qed.

Lemma truthy_Some (p : gmap string value) : p <> ∅ -> truthy (Some p) = true.
Proof.
  intros Hp. simpl. rewrite bool_decide_eq_false_2 by exact Hp. reflexivity.
Qed.

Lemma compute_delta_pct_Some curr (p : gmap string value) (a c : float) :
  p <> ∅ ->
  py_float (get p "area" (PyInt 0)) = Ok a ->
  py_float (get curr "area" (PyInt 0)) = Ok c ->
  compute_delta_pct curr (Some p) =
    Ok ((c - py_max 1.0 a) / py_max 1.0 a * 100.0).
Proof.
  intros Hp Ha Hc. unfold compute_delta_pct.
  rewrite (truthy_Some p Hp), Ha. cbn [bind]. rewrite Hc. cbn [bind].
  unfold truediv. rewrite py_max_one_nonzero. reflexivity.
Qed.

Lemma compute_delta_pct_falsy curr prev :
  truthy prev = false -> compute_delta_pct curr prev = Ok 0.0.
Proof.
  intros H. unfold compute_delta_pct. destruct prev; [|reflexivity].
  rewrite H. reflexivity.
Qed.


(** The status the rule chain reaches does not depend on the two quality
    inputs. *)
Lemma run_rules_status (delta redness exud b1 br1 b2 br2 : float) :
  (run_rules delta redness exud b1 br1).2.1 =
  (run_rules delta redness exud b2 br2).2.1.
Proof.
  rewrite !run_rules_unfold. cbn [fst snd].
  pose proof (exudate_rule_status exud Monitor
    (quality_check b1 br1).2 (quality_check b2 br2).2) as He.
  destruct (exudate_rule exud (Monitor, (quality_check b1 br1).2)) as [s1 r1].
  destruct (exudate_rule exud (Monitor, (quality_check b2 br2).2)) as [s2 r2].
  simpl in He. subst s2.
  pose proof (delta_rule_status delta s1 r1 r2) as Hd.
  destruct (delta_rule delta (s1, r1)) as [s3 r3].
  destruct (delta_rule delta (s1, r2)) as [s4 r4].
  simpl in Hd. subst s4.
  apply redness_rule_status.
Qed.

(** [compute_delta_pct] reads the two [area] fields and the truth value of
    the previous dictionary, nothing else. *)
Lemma compute_delta_pct_ext curr curr' prev prev' :
  py_float (get curr "area" (PyInt 0)) = py_float (get curr' "area" (PyInt 0)) ->
  truthy prev = truthy prev' ->
  (forall p p', prev = Some p -> prev' = Some p' ->
     py_float (get p "area" (PyInt 0)) = py_float (get p' "area" (PyInt 0))) ->
  compute_delta_pct curr prev = compute_delta_pct curr' prev'.
Proof.
  intros Hc Ht Hp. destruct (truthy prev) eqn:E.
  - destruct prev as [p|]; [|discriminate].
    destruct prev' as [p'|]; [|discriminate].
    unfold compute_delta_pct. rewrite E, <- Ht, Hc, (Hp p p'); reflexivity.
  - rewrite !compute_delta_pct_falsy; auto.
Qed.

Lemma differ_only_in_quality_get (m m' : gmap string value) (k : string) (v : value) :
  differ_only_in_quality m m' -> k <> "blur_var" -> k <> "brightness" ->
  get m k v = get m' k v.
Proof. intros H H1 H2. unfold get. rewrite (H k H1 H2). reflexivity. Qed.

(** A missing field reads as the default; storing 0.0 there changes no
    read. *)
Lemma py_float_get_insert (m : gmap string value) (k k' : string) (dflt : value) :
  m !! k = None -> py_float dflt = Ok 0.0 ->
  py_float (get (<[k := PyFloat 0.0]> m) k' dflt) = py_float (get m k' dflt).
Proof.
  intros Hk Hd. unfold get. destruct (decide (k = k')) as [<-|Hne].
  - rewrite lookup_insert_eq, Hk. simpl. symmetry. exact Hd.
  - rewrite lookup_insert_ne by exact Hne. reflexivity.
Qed.

Lemma numeric_get (m : gmap string value) (k : string) (dflt : value) :
  (forall v, m !! k = Some v -> numeric v) -> numeric dflt ->
  exists f, py_float (get m k dflt) = Ok f.
Proof.
  intros H Hd. unfold get.
  assert (Hn : numeric (default dflt (m !! k))).
  { destruct (m !! k) as [v|] eqn:E; simpl; auto. }
  unfold numeric in Hn. destruct (py_float _) as [f|]; [eauto|discriminate].
Qed.

(** The tags of the rule chain. *)
Lemma quality_check_tagged (blur_var brightness : float) :
  Forall (fun t => starts_like_tag t = true) (quality_check blur_var brightness).2.
Proof.
  unfold quality_check.
  destruct ((blur_var <? 60.0) || (brightness <? 30.0))%bool; simpl;
    repeat constructor.
Qed.

Lemma exudate_rule_tagged (exud : float) (st : rule_state) :
  Forall (fun t => starts_like_tag t = true) st.2 ->
  Forall (fun t => starts_like_tag t = true) (exudate_rule exud st).2.
Proof.
  destruct st as [status r]. unfold exudate_rule. intros H.
  repeat match goal with
  | |- context [if ?b then _ else _] => destruct b
  end; simpl; try assumption; apply Forall_app; split; auto;
    repeat constructor.
Qed.

Lemma delta_rule_tagged (delta : float) (st : rule_state) :
  Forall (fun t => starts_like_tag t = true) st.2 ->
  Forall (fun t => starts_like_tag t = true) (delta_rule delta st).2.
Proof.
  destruct st as [status r]. unfold delta_rule. intros H.
  repeat match goal with
  | |- context [if ?b then _ else _] => destruct b
  end; simpl; try assumption; apply Forall_app; split; auto;
    repeat constructor.
Qed.

Lemma redness_rule_tagged (redness : float) (st : rule_state) :
  Forall (fun t => starts_like_tag t = true) st.2 ->
  Forall (fun t => starts_like_tag t = true) (redness_rule redness st).2.
Proof.
  destruct st as [status r]. unfold redness_rule. intros H.
  repeat match goal with
  | |- context [if ?b then _ else _] => destruct b
  end; simpl; try assumption; apply Forall_app; split; auto;
    repeat constructor.
Qed.

Lemma run_rules_tagged (delta redness exud blur_var brightness : float) :
  Forall (fun t => starts_like_tag t = true)
    (run_rules delta redness exud blur_var brightness).2.2.
Proof.
  rewrite run_rules_unfold. cbn [fst snd].
  apply redness_rule_tagged, delta_rule_tagged, exudate_rule_tagged.
  apply quality_check_tagged.
Qed.

(** A non-empty list of tags never joins to the default explanation. *)
Lemma explanation_of_tags (reason : list string) :
  reason <> [] ->
  Forall (fun t => starts_like_tag t = true) reason ->
  explanation_of reason <> "heuristic_default".
Proof.
  destruct reason as [|t rest]; [congruence|]. intros _ H.
  apply Forall_cons in H as [Ht _].
  destruct t as [|a [|b t']]; simpl in Ht; try discriminate.
  unfold explanation_of. intros E.
  assert (Hab : a = "h"%char /\ b = "e"%char).
  { destruct rest; simpl in E; injection E; auto. }
  destruct Hab as [-> ->]. discriminate.
Qed.

(** From [Monitor], the exudate rule reaches [Urgent] only with its tag. *)
Lemma exudate_rule_urgent_tag (exud : float) (reason : list string) :
  (exudate_rule exud (Monitor, reason)).1 = Urgent ->
  (exudate_rule exud (Monitor, reason)).2 <> [].
Proof.
  unfold exudate_rule. destruct (EXUDATE_HIGH <=? exud).
  - intros _ E. by apply app_eq_nil in E as [_ ?].
  - destruct ((EXUDATE_MED <=? exud) && _)%bool; discriminate.
Qed.

(** For a [delta] that is a number, the delta rule appends a tag unless
    the status it finds is already [Urgent]. *)
Lemma delta_rule_tag_or_urgent (delta : float) (status : status) (reason : list string) :
  is_nan delta = false ->
  (exists status' tag, delta_rule delta (status, reason) = (status', reason ++ [tag])) \/
  (status = Urgent /\ delta_rule delta (status, reason) = (status, reason)).
Proof.
  intros Hn. unfold delta_rule, DELTA_URGENT, DELTA_CONCERNING.
  destruct (15.0 <? delta) eqn:E1; [left; eauto|].
  destruct (((5.0 <? delta) && (delta <=? 15.0)) && negb (status_eqb status Urgent))%bool
    eqn:E2; [left; eauto|].
  destruct ((-5.0 <=? delta) && (delta <=? 5.0))%bool eqn:E3; [left; eauto|].
  destruct (delta <? -5.0) eqn:E4; [left; eauto|].
  right. split; [|reflexivity].
  apply not_ltb_leb in E4; [|exact Hn|reflexivity].
  apply not_ltb_leb in E1; [|reflexivity|exact Hn].
  rewrite E4 in E3. simpl in E3.
  apply not_leb_ltb in E3; [|exact Hn|reflexivity].
  rewrite E3, E1 in E2. simpl in E2.
  destruct status; simpl in E2; try discriminate. reflexivity.
Qed.

Lemma run_rules_reason_nonempty (delta redness exud blur_var brightness : float) :
  is_nan delta = false ->
  (run_rules delta redness exud blur_var brightness).2.2 <> [].
Proof.
  intros Hn. rewrite run_rules_unfold. cbn [fst snd].
  set (q := (quality_check blur_var brightness).2).
  pose proof (exudate_rule_urgent_tag exud q) as Hu.
  destruct (exudate_rule exud (Monitor, q)) as [s1 r1]. simpl in Hu.
  assert (Hd : (delta_rule delta (s1, r1)).2 <> []).
  { destruct (delta_rule_tag_or_urgent delta s1 r1 Hn)
      as [(s' & tag & ->)|[-> ->]]; simpl.
    - intros E. by apply app_eq_nil in E as [_ ?].
    - auto. }
  destruct (redness_rule_reason redness (delta_rule delta (s1, r1))) as [tags ->].
  intros E. by apply app_eq_nil in E as [? _].
Qed.

(** With finite areas the computed delta is a number: infinite, at worst. *)
Lemma py_max_one_positive (a : float) :
  isfinite a = true ->
  exists m e, Prim2SF (py_max 1.0 a) = S754_finite false m e.
Proof.
  unfold isfinite, py_max. intros Ha.
  destruct (1.0 <? a) eqn:E; [|eexists _, _; vm_compute; reflexivity].
  apply ltb_compare in E.
  remember (Prim2SF 1.0) as one eqn:Hone. vm_compute in Hone. subst one.
  destruct (Prim2SF a) as [s|s| |[] m e]; try discriminate; eauto.
Qed.

Lemma delta_pct_not_nan (c a : float) :
  isfinite c = true -> isfinite a = true ->
  is_nan ((c - py_max 1.0 a) / py_max 1.0 a * 100.0) = false.
Proof.
  intros Hc Ha. apply is_nan_spec.
  rewrite FloatAxioms.mul_spec, FloatAxioms.div_spec, FloatAxioms.sub_spec.
  destruct (py_max_one_positive a Ha) as (m & e & Hp). rewrite Hp.
  remember (Prim2SF 100.0) as hundred eqn:Hh. vm_compute in Hh. subst hundred.
  apply SFmul_finite, SFdiv_positive, SFsub_finite; try discriminate.
  - intros s E. unfold isfinite in Hc. rewrite E in Hc. discriminate.
  - intros E. unfold isfinite in Hc. rewrite E in Hc. discriminate.
Qed.

Lemma compute_delta_pct_number curr prev (delta : float) :
  areas_finite curr prev ->
  compute_delta_pct curr prev = Ok delta ->
  is_nan delta = false.
Proof.
  intros [Hc Hp] Hd. destruct (truthy prev) eqn:Et.
  - destruct prev as [p|]; [|discriminate].
    unfold compute_delta_pct in Hd. rewrite Et in Hd.
    destruct (py_float (get p "area" (PyInt 0))) as [a|] eqn:Ea; [|discriminate].
    cbn [bind] in Hd.
    destruct (py_float (get curr "area" (PyInt 0))) as [c|] eqn:Ec; [|discriminate].
    cbn [bind] in Hd. unfold truediv in Hd.
    rewrite py_max_one_nonzero in Hd. cbn [bind] in Hd. injection Hd as <-.
    apply delta_pct_not_nan; [by apply Hc|by apply (Hp p)].
  - rewrite compute_delta_pct_falsy in Hd by exact Et. by injection Hd as <-.
Qed.

End DecideStatus.

Section DecisionProperties.
Local Open Scope float_scope.
Implicit Types (curr : gmap string value) (prev : option (gmap string value)).

Local Ltac in_fields := unfold metric_fields; repeat constructor.

(* Every field of a literal dictionary, checked one key at a time. *)
Local Ltac check_fields :=
  let k := fresh "k" in let v := fresh "v" in
  let Hk := fresh "Hk" in let Hv := fresh "Hv" in
  intros k v Hk Hv; unfold metric_fields in Hk;
  repeat (apply elem_of_cons in Hk as [->|Hk]);
  [ vm_compute in Hv; try discriminate Hv;
    injection Hv as <-; reflexivity .. | by apply elem_of_nil in Hk ].

(** C1. Whenever the computed [delta_pct] is below -5, the delta rule sets
    the running status to [Stable] whatever the earlier rules left there
    ([Urgent] and [Concerning] included) and appends the decrease tag; the
    redness rule, which runs last, is the only thing that can still change
    it, so the returned status is [Stable] whenever redness is not above
    120. With [exudate_ratio = 0.09], [redness = 50] and areas 100 then 90
    ([delta_pct = -10]) the returned status is [Stable]: the example that
    follows the theorem. *)
Theorem decrease_resets_status curr prev (d : decision) :
  decide_status curr prev = Ok d ->
  (d_delta_pct d <? -5.0) = true ->
  (forall (status : status) (reason : list string),
     delta_rule (d_delta_pct d) (status, reason) =
       (Stable,
        reason ++ ["area_decrease_pct:" +:+ format_f 1 (d_delta_pct d)])) /\
  (forall redness : float,
     py_float (get curr "redness" (PyFloat 0.0)) = Ok redness ->
     (REDNESS_CONCERNING <? redness) = false ->
     d_status d = Stable).
Proof.
  intros Hd Hlt. split.
  - intros status reason. by apply delta_rule_decrease.
  - intros redness Hr Hq.
    apply decide_status_inv in Hd
      as (delta & redness' & exud & blur_var & brightness & _ & Hr' & _ & _ & _ & ->).
    rewrite Hr in Hr'. injection Hr' as <-.
    rewrite decide_fields in Hlt |- *. cbn [d_status d_delta_pct] in *.
    rewrite run_rules_unfold. cbn [fst snd].
    rewrite redness_rule_quiet by exact Hq.
    destruct (exudate_rule exud _) as [status reason].
    by rewrite delta_rule_decrease.
Qed.

Lemma decrease_resets_status_example :
  exists d : decision,
    decide_status Samples.shrinking_curr (Some Samples.area_100) = Ok d /\
    d_delta_pct d = (-10.0)%float /\
    (exudate_rule 0.09 (Monitor, [])).1 = Urgent /\
    d_status d = Stable.
Proof.
  eexists. split; [vm_compute; reflexivity|].
  split; [reflexivity|]. split; [reflexivity|].
  eapply (decrease_resets_status Samples.shrinking_curr (Some Samples.area_100)).
  - vm_compute. reflexivity.
  - reflexivity.
  - vm_compute. reflexivity.
  - reflexivity.
Defined.



(** C3, as the code has it. With redness 160, no exudate, no previous
    observation and a capture that passes the quality check, the status is
    [Urgent] and the explanation holds two tags: the informational
    [area_change_pct:0.0], which the delta rule appends for every change
    within five percent, and then the redness tag. *)
Theorem redness_alone_is_urgent curr (blur_var brightness : float) :
  curr !! "redness" = Some (PyFloat 160.0) ->
  get curr "exudate_ratio" (PyFloat 0.0) = PyFloat 0.0 ->
  py_float (get curr "blur_var" (PyFloat 0.0)) = Ok blur_var ->
  py_float (get curr "brightness" (PyFloat 0.0)) = Ok brightness ->
  (blur_var <? 60.0) = false ->
  (brightness <? 30.0) = false ->
  decide_status curr None =
    Ok {| d_status := Urgent;
          d_delta_pct := 0.0;
          d_quality := QualityOk;
          d_explanation := "area_change_pct:0.0; redness:160.0" |}.
Proof.
  intros Hr He Hb Hbr Hq1 Hq2.
  rewrite (decide_status_ok curr None 0.0 160.0 0.0 blur_var brightness);
    try assumption; try reflexivity.
  - f_equal. unfold decision_of, run_rules, quality_check.
    rewrite Hq1, Hq2. vm_compute. reflexivity.
  - unfold get. rewrite Hr. reflexivity.
  - rewrite He. reflexivity.
Qed.

Lemma redness_alone_is_urgent_example :
  decide_status Samples.red_curr None =
    Ok {| d_status := Urgent;
          d_delta_pct := 0.0;
          d_quality := QualityOk;
          d_explanation := "area_change_pct:0.0; redness:160.0" |}.
Proof.
  apply (redness_alone_is_urgent Samples.red_curr 100.0 100.0);
    vm_compute; reflexivity.
Defined.

(** C3 as worded fails: on that input the tag list is not the redness tag
    alone. *)
Lemma redness_tag_is_not_alone :
  (run_rules 0.0 160.0 0.0 100.0 100.0).2.2 =
    ["area_change_pct:0.0"; "redness:160.0"] /\
  (exists d : decision,
     decide_status Samples.red_curr None = Ok d /\
     d_status d = Urgent /\
     d_explanation d = "area_change_pct:0.0; redness:160.0") /\
  "area_change_pct:0.0; redness:160.0" <> "redness:160.0".
Proof.
  split; [vm_compute; reflexivity|]. split; [|discriminate].
  eexists. split; [vm_compute; reflexivity|]. split; reflexivity.
Qed.

(** C6. The returned quality is [poor] exactly when [blur_var < 60] or
    [brightness < 30], and [ok] otherwise; and the returned status does not
    depend on those two fields: a second call on inputs that differ from
    the first at most in [blur_var] and [brightness] returns the same
    status. *)
Theorem quality_never_changes_status curr curr' prev prev'
    (d d' : decision) (blur_var brightness : float) :
  decide_status curr prev = Ok d ->
  py_float (get curr "blur_var" (PyFloat 0.0)) = Ok blur_var ->
  py_float (get curr "brightness" (PyFloat 0.0)) = Ok brightness ->
  (d_quality d = QualityPoor <->
     (blur_var <? 60.0) = true \/ (brightness <? 30.0) = true) /\
  (d_quality d = QualityOk <->
     ~ ((blur_var <? 60.0) = true \/ (brightness <? 30.0) = true)) /\
  (differ_only_in_quality curr curr' ->
   same_previous prev prev' ->
   decide_status curr' prev' = Ok d' ->
   d_status d' = d_status d).
Proof.
  intros Hd Hb Hbr.
  apply decide_status_inv in Hd
    as (delta & redness & exud & b & br & Hdelta & Hr & He & Hb' & Hbr' & ->).
  rewrite Hb in Hb'. injection Hb' as <-.
  rewrite Hbr in Hbr'. injection Hbr' as <-.
  rewrite decide_fields. cbn [d_status d_quality].
  assert (Hq : (run_rules delta redness exud blur_var brightness).1 =
               if ((blur_var <? 60.0) || (brightness <? 30.0))%bool
               then QualityPoor else QualityOk).
  { rewrite run_rules_unfold. unfold quality_check.
    destruct ((blur_var <? 60.0) || (brightness <? 30.0))%bool; reflexivity. }
  rewrite Hq. split; [|split].
  - rewrite <- Bool.orb_true_iff.
    destruct ((blur_var <? 60.0) || (brightness <? 30.0))%bool;
      split; congruence.
  - rewrite <- Bool.orb_true_iff.
    destruct ((blur_var <? 60.0) || (brightness <? 30.0))%bool;
      split; congruence.
  - intros Hc [Ht Hp] Hd'.
    apply decide_status_inv in Hd'
      as (delta' & redness' & exud' & b' & br' & Hdelta' & Hr' & He' & _ & _ & ->).
    rewrite decide_fields. cbn [d_status].
    assert (delta' = delta) as ->.
    { rewrite (compute_delta_pct_ext curr curr' prev prev') in Hdelta.
      - congruence.
      - f_equal. by apply differ_only_in_quality_get.
      - exact Ht.
      - intros p p' -> ->. f_equal.
        apply differ_only_in_quality_get; [by apply Hp|done..]. }
    assert (redness' = redness) as ->.
    { rewrite (differ_only_in_quality_get curr curr') in Hr by done. congruence. }
    assert (exud' = exud) as ->.
    { rewrite (differ_only_in_quality_get curr curr') in He by done. congruence. }
    apply run_rules_status.
Qed.

Lemma quality_never_changes_status_example :
  exists d d' : decision,
    decide_status Samples.red_curr None = Ok d /\
    decide_status Samples.red_curr_blurred None = Ok d' /\
    d_quality d = QualityOk /\ d_quality d' = QualityPoor /\
    d_status d' = d_status d.
Proof.
  eexists. eexists.
  split; [vm_compute; reflexivity|]. split; [vm_compute; reflexivity|].
  split; [reflexivity|]. split; [reflexivity|].
  eapply (quality_never_changes_status Samples.red_curr Samples.red_curr_blurred
            None None _ _ 100.0 100.0).
  - vm_compute. reflexivity.
  - vm_compute. reflexivity.
  - vm_compute. reflexivity.
  - intros k H1 H2. unfold Samples.red_curr_blurred.
    rewrite !lookup_insert_ne by congruence. reflexivity.
  - split; [reflexivity|]. intros p p' E. discriminate E.
  - vm_compute. reflexivity.
Defined.

(** C2, as the code has it. [decide_status] returns a decision whenever
    every field it reads is either missing or a number; a missing field
    reads as 0.0, so storing 0.0 in its place changes nothing. A field
    that holds something [float()] rejects is not coerced: the call
    raises, as the null field further down shows. *)
Theorem decide_status_total_on_numbers curr prev :
  fields_numeric curr metric_fields ->
  (forall p, prev = Some p -> fields_numeric p ["area"]) ->
  (exists d : decision, decide_status curr prev = Ok d) /\
  (forall k, k ∈ metric_fields -> curr !! k = None ->
     decide_status (<[k := PyFloat 0.0]> curr) prev = decide_status curr prev) /\
  (forall p, prev = Some p -> p <> ∅ -> p !! "area" = None ->
     decide_status curr (Some (<["area" := PyFloat 0.0]> p)) =
     decide_status curr prev).
Proof.
  intros Hc Hp. split; [|split].
  - assert (Hnum : forall k dflt, k ∈ metric_fields -> numeric dflt ->
              exists f, py_float (get curr k dflt) = Ok f).
    { intros k dflt Hk Hd. apply numeric_get; [|exact Hd].
      intros v Hv. exact (Hc k v Hk Hv). }
    destruct (Hnum "area" (PyInt 0)) as [c Hcv]; [in_fields|reflexivity|].
    destruct (Hnum "redness" (PyFloat 0.0)) as [r Hr]; [in_fields|reflexivity|].
    destruct (Hnum "exudate_ratio" (PyFloat 0.0)) as [e He];
      [in_fields|reflexivity|].
    destruct (Hnum "blur_var" (PyFloat 0.0)) as [b Hb]; [in_fields|reflexivity|].
    destruct (Hnum "brightness" (PyFloat 0.0)) as [br Hbr];
      [in_fields|reflexivity|].
    assert (Hdelta : exists delta, compute_delta_pct curr prev = Ok delta).
    { destruct (truthy prev) eqn:Et.
      - destruct prev as [p|]; [|discriminate].
        destruct (numeric_get p "area" (PyInt 0)) as [a Ha];
          [|reflexivity|].
        + intros v Hv. apply (Hp p eq_refl "area" v); [in_fields|exact Hv].
        + eexists. apply (compute_delta_pct_Some curr p a c); auto.
          intros ->. simpl in Et. rewrite bool_decide_eq_true_2 in Et; done.
      - eexists. by apply compute_delta_pct_falsy. }
    destruct Hdelta as [delta Hdelta].
    eexists. by apply (decide_status_ok curr prev delta r e b br).
  - intros k _ Hk. unfold decide_status.
    rewrite (compute_delta_pct_ext (<[k := PyFloat 0.0]> curr) curr prev prev);
      auto.
    + rewrite !(py_float_get_insert curr k) by (auto; reflexivity). reflexivity.
    + apply py_float_get_insert; [exact Hk|reflexivity].
    + intros p p' -> [= ->]. reflexivity.
  - intros p -> Hne Hk.
    assert (E : compute_delta_pct curr (Some (<["area" := PyFloat 0.0]> p)) =
                compute_delta_pct curr (Some p)).
    { unfold compute_delta_pct. rewrite !truthy_Some; auto.
      - rewrite (py_float_get_insert p "area") by (auto; reflexivity). reflexivity.
      - apply (lookup_nonempty _ "area" (PyFloat 0.0)), lookup_insert_eq. }
    unfold decide_status. rewrite E. reflexivity.
Qed.

Lemma decide_status_total_on_numbers_example :
  exists d : decision,
    decide_status Samples.growing_curr (Some Samples.area_100) = Ok d.
Proof.
  apply (decide_status_total_on_numbers Samples.growing_curr (Some Samples.area_100)).
  - check_fields.
  - intros p [= <-]. check_fields.
Defined.

(** C2 as worded fails: a field that holds null is not read as 0.0, the
    conversion raises [TypeError]. *)
Lemma null_field_raises :
  decide_status Samples.null_redness None = Raise TypeError.
Proof. vm_compute. reflexivity. Qed.

(** C10, as the code has it. Whenever the two [area] fields are finite
    numbers, or in any other way the computed [delta_pct] is not NaN:
    a change between -5 and 5 percent appends the [area_change_pct] tag
    and leaves the status alone; in every case the delta rule appends a tag
    unless the status it finds is already [Urgent], which only the exudate
    rule, with its tag, can have set; so the tag list is not empty and the
    explanation is not ["heuristic_default"]. *)
Theorem explanation_is_never_default curr prev (d : decision) :
  decide_status curr prev = Ok d ->
  areas_finite curr prev \/ is_nan (d_delta_pct d) = false ->
  is_nan (d_delta_pct d) = false /\
  (forall (status : status) (reason : list string),
     (-5.0 <=? d_delta_pct d) = true -> (d_delta_pct d <=? 5.0) = true ->
     delta_rule (d_delta_pct d) (status, reason) =
       (status, reason ++ ["area_change_pct:" +:+ format_f 1 (d_delta_pct d)])) /\
  (forall (status : status) (reason : list string),
     (exists status' tag,
        delta_rule (d_delta_pct d) (status, reason) = (status', reason ++ [tag])) \/
     (status = Urgent /\
      delta_rule (d_delta_pct d) (status, reason) = (status, reason))) /\
  (forall (exud : float) (reason : list string),
     (exudate_rule exud (Monitor, reason)).1 = Urgent ->
     (exudate_rule exud (Monitor, reason)).2 <> []) /\
  (exists redness exud blur_var brightness,
     d = decision_of (d_delta_pct d) redness exud blur_var brightness /\
     (run_rules (d_delta_pct d) redness exud blur_var brightness).2.2 <> []) /\
  d_explanation d <> "heuristic_default".
Proof.
  intros Hd Hn.
  apply decide_status_inv in Hd
    as (delta & redness & exud & blur_var & brightness & Hdelta & _ & _ & _ & _ & ->).
  rewrite decide_fields in Hn |- *. cbn [d_delta_pct d_explanation] in *.
  assert (Hnan : is_nan delta = false).
  { destruct Hn as [Hfin|Hn]; [|exact Hn].
    by apply (compute_delta_pct_number curr prev). }
  pose proof (run_rules_reason_nonempty delta redness exud blur_var brightness Hnan)
    as Hne.
  split; [exact Hnan|]. repeat split.
  - intros status reason. apply delta_rule_steady.
  - intros status reason. by apply delta_rule_tag_or_urgent.
  - apply exudate_rule_urgent_tag.
  - exists redness, exud, blur_var, brightness. split; [|exact Hne].
    symmetry. apply decide_fields.
  - apply explanation_of_tags; [exact Hne|apply run_rules_tagged].
Qed.

Lemma explanation_is_never_default_example :
  exists d : decision,
    decide_status Samples.sharp_curr None = Ok d /\
    d_explanation d = "area_change_pct:0.0" /\
    d_explanation d <> "heuristic_default".
Proof.
  eexists. split; [vm_compute; reflexivity|]. split; [reflexivity|].
  eapply (explanation_is_never_default Samples.sharp_curr None).
  - vm_compute. reflexivity.
  - left. split.
    + intros c Hc. vm_compute in Hc. injection Hc as <-. reflexivity.
    + intros p a Hp. discriminate Hp.
Defined.

(** C10 as worded fails: every field below is a number and none is NaN,
    yet an infinite previous area makes [delta_pct] NaN, no rule fires and
    the explanation is the default. *)
Lemma infinite_area_gives_default :
  Samples.area_inf !! "area" = Some (PyFloat infinity) /\
  is_nan infinity = false /\
  decide_status Samples.sharp_curr (Some Samples.area_inf) =
    Ok {| d_status := Monitor;
          d_delta_pct := nan;
          d_quality := QualityOk;
          d_explanation := "heuristic_default" |}.
Proof. repeat split; vm_compute; reflexivity. Qed.

End DecisionProperties.

(** ** Rasters and the morphological filters *)

Section Rasters.

Lemma same_shape_size {A B} (a : raster A) (b : raster B) :
  same_shape a b -> size a = size b.
Proof.
  unfold size. intros H. f_equal.
  induction H as [|r r' a b Hr _ IH]; simpl; [reflexivity|].
  rewrite !length_app. congruence.
Qed.

Lemma same_shape_trans {A B C} (a : raster A) (b : raster B) (c : raster C) :
  same_shape a b -> same_shape b c -> same_shape a c.
Proof.
  unfold same_shape. intros Hab. revert c.
  induction Hab as [|r r' a b Hr _ IH]; intros c Hbc.
  - inversion Hbc. constructor.
  - inversion Hbc as [|r2 r3 b2 c2 Hr2 Hbc2]; subst.
    constructor; [congruence|]. by apply IH.
Qed.

Lemma same_shape_fmap {A B} (f : A -> B) (a : raster A) :
  same_shape (fmap (M := list) f <$> a) a.
Proof.
  induction a as [|r a IH]; constructor; [apply length_fmap|exact IH].
Qed.

Lemma same_shape_imap {A B} (F : nat -> list A -> list B) (a : raster A) :
  (forall y row, length (F y row) = length row) -> same_shape (imap F a) a.
Proof.
  revert F. induction a as [|r a IH]; intros F HF; simpl; constructor.
  - apply HF.
  - apply IH. intros y row. apply HF.
Qed.

Lemma same_shape_erode (k : list (Z * Z)) (m : raster Z) :
  same_shape (erode k m) m.
Proof. apply same_shape_imap. intros y row. apply length_imap. Qed.

Lemma same_shape_dilate (k : list (Z * Z)) (m : raster Z) :
  same_shape (dilate k m) m.
Proof. apply same_shape_imap. intros y row. apply length_imap. Qed.

(** Opening and closing keep the dimensions of the mask. *)
Lemma same_shape_morph (k : list (Z * Z)) (m : raster Z) :
  same_shape (morph_close k (morph_open k m)) m.
Proof.
  unfold morph_close, morph_open.
  repeat (eapply same_shape_trans;
          [first [apply same_shape_erode | apply same_shape_dilate]|]).
  induction m; constructor; auto.
Qed.

Lemma imap_replicate {A B} (f : nat -> A -> B) (n : nat) (a : A) (b : B) :
  (forall i, (i < n)%nat -> f i a = b) ->
  imap f (replicate n a) = replicate n b.
Proof.
  revert f. induction n as [|n IH]; intros f Hf; simpl; [reflexivity|].
  f_equal; [apply Hf; lia|]. apply IH. intros i Hi. apply Hf. lia.
Qed.

Lemma imap_uniform {A B} (g : nat -> nat -> B) (h w : nat) (c : A) (c' : B) :
  (forall y x, (y < h)%nat -> (x < w)%nat -> g y x = c') ->
  imap (fun y row => imap (fun x _ => g y x) row) (uniform h w c) =
  uniform h w c'.
Proof.
  intros Hg. unfold uniform. apply imap_replicate. intros y Hy.
  apply imap_replicate. intros x Hx. by apply Hg.
Qed.

Lemma fmap_uniform {A B} (f : A -> B) (h w : nat) (c : A) :
  fmap (M := list) f <$> uniform h w c = uniform h w (f c).
Proof. unfold uniform. by rewrite !fmap_replicate. Qed.

Lemma concat_uniform {A} (h w : nat) (c : A) :
  concat (uniform h w c) = replicate (h * w) c.
Proof.
  unfold uniform. induction h as [|h IH]; simpl; [reflexivity|].
  by rewrite IH, replicate_add.
Qed.

Lemma size_uniform {A} (h w : nat) (c : A) :
  size (uniform h w c) = Z.of_nat (h * w).
Proof. unfold size. by rewrite concat_uniform, length_replicate. Qed.

Lemma count_uniform_false {A} (P : A -> bool) (h w : nat) (c : A) :
  P c = false -> count P (uniform h w c) = 0.
Proof.
  intros HP. unfold count. rewrite concat_uniform.
  induction (h * w)%nat as [|n IH]; simpl; [reflexivity|].
  rewrite filter_cons_False by congruence. exact IH.
Qed.

Lemma foldr_add_replicate (n : nat) (c : Z) :
  foldr Z.add 0 (replicate n c) = c * Z.of_nat n.
Proof. induction n as [|n IH]; simpl; [lia|]. rewrite IH. lia. Qed.

(** Inside a uniform raster every sample is the same. *)
Lemma at_uniform (h w : nat) (c : Z) (y x : Z) (v : Z) :
  at_ (uniform h w c) y x = Some v -> v = c.
Proof.
  unfold at_, uniform. intros Hv.
  destruct ((0 <=? y) && (0 <=? x)); [|discriminate].
  destruct (replicate h (replicate w c) !! Z.to_nat y) as [row|] eqn:E;
    simpl in Hv; [|discriminate].
  apply lookup_replicate in E as [-> _].
  by apply lookup_replicate in Hv as [-> _].
Qed.

Lemma at_uniform_here (h w : nat) (c : Z) (y x : nat) :
  (y < h)%nat -> (x < w)%nat ->
  at_ (uniform h w c) (Z.of_nat y + 0) (Z.of_nat x + 0) = Some c.
Proof.
  intros Hy Hx. unfold at_, uniform. rewrite !Z.add_0_r.
  replace ((0 <=? Z.of_nat y) && (0 <=? Z.of_nat x)) with true
    by (symmetry; apply andb_true_intro; split; apply Z.leb_le; lia).
  rewrite !Nat2Z.id, lookup_replicate_2 by exact Hy. simpl.
  by apply lookup_replicate_2.
Qed.

Lemma neighbours_uniform (k : list (Z * Z)) (h w : nat) (c : Z) (y x : nat) :
  Forall (eq c) (neighbours k (uniform h w c) y x).
Proof.
  apply Forall_forall. intros v Hv. unfold neighbours in Hv.
  apply list_elem_of_omap in Hv as (d & _ & Hd).
  symmetry. by apply at_uniform in Hd.
Qed.

Lemma neighbours_uniform_nonempty (k : list (Z * Z)) (h w : nat) (c : Z) (y x : nat) :
  (0, 0) ∈ k -> (y < h)%nat -> (x < w)%nat ->
  neighbours k (uniform h w c) y x <> [].
Proof.
  intros Hk Hy Hx E.
  assert (Hc : c ∈ neighbours k (uniform h w c) y x).
  { apply list_elem_of_omap. exists (0, 0). split; [exact Hk|].
    by apply at_uniform_here. }
  rewrite E in Hc. by apply elem_of_nil in Hc.
Qed.

Lemma foldr_max_zero (l : list Z) : Forall (eq 0) l -> foldr Z.max 0 l = 0.
Proof. induction 1 as [|v l <- _ IH]; simpl; [reflexivity|]. rewrite IH. lia. Qed.

Lemma foldr_min_zero (l : list Z) :
  Forall (eq 0) l -> l <> [] -> foldr Z.min 255 l = 0.
Proof.
  intros H Hne.
  assert (Hge : forall l', Forall (eq 0) l' -> 0 <= foldr Z.min 255 l').
  { induction 1 as [|v l' <- _ IH]; simpl; lia. }
  destruct H as [|v l <- H]; [congruence|]. simpl.
  specialize (Hge l H). lia.
Qed.

(** An empty mask stays empty under dilation and erosion. *)
Lemma dilate_zero (k : list (Z * Z)) (h w : nat) :
  dilate k (uniform h w 0) = uniform h w 0.
Proof.
  unfold dilate.
  apply (imap_uniform
           (fun y x => foldr Z.max 0 (neighbours k (uniform h w 0) y x))).
  intros y x _ _. apply foldr_max_zero, neighbours_uniform.
Qed.

Lemma erode_zero (k : list (Z * Z)) (h w : nat) :
  (0, 0) ∈ k -> erode k (uniform h w 0) = uniform h w 0.
Proof.
  intros Hk. unfold erode.
  apply (imap_uniform
           (fun y x => foldr Z.min 255 (neighbours k (uniform h w 0) y x))).
  intros y x Hy Hx. apply foldr_min_zero.
  - apply neighbours_uniform.
  - by apply neighbours_uniform_nonempty.
Qed.

Lemma kernel_has_anchor : (0, 0) ∈ kernel.
Proof. apply (list_elem_of_lookup_2 _ 16%nat). reflexivity. Qed.

Lemma morph_zero (h w : nat) :
  morph_close kernel (morph_open kernel (uniform h w 0)) = uniform h w 0.
Proof.
  unfold morph_close, morph_open.
  rewrite (erode_zero kernel h w kernel_has_anchor).
  rewrite !dilate_zero.
  apply (erode_zero kernel h w kernel_has_anchor).
Qed.

End Rasters.

(** ** Means of pixel counts *)

Section PixelCounts.
Local Open Scope float_scope.

(** Below 2^62 the hardware conversion is [float_of]. *)
Lemma float_of_prim_eq (n : Z) :
  (0 <= n < 2 ^ 62)%Z -> float_of n = float_of_prim n.
Proof.
  intros Hn. unfold float_of, float_of_prim.
  rewrite <- (SF2Prim_Prim2SF (of_uint63 _)), of_uint63_spec.
  rewrite Uint63.of_Z_spec, Z.mod_small; [reflexivity|].
  split; [lia|]. eapply Z.lt_trans; [apply Hn|]. reflexivity.
Qed.

Lemma all_from_spec (P : Z -> bool) (fuel : nat) (n : Z) :
  all_from P fuel n = true ->
  forall k, (n <= k < n + Z.of_nat fuel)%Z -> P k = true.
Proof.
  revert n. induction fuel as [|fuel IH]; intros n H k Hk; [lia|].
  simpl in H. destruct (P n) eqn:E; [|discriminate].
  destruct (Z.eq_dec k n) as [->|Hne]; [exact E|].
  apply (IH (n + 1)%Z H). lia.
Qed.

Lemma mean_exact_128_checked :
  all_from (mean_exact_at 128) (Z.to_nat max_pixels) 1 = true.
Proof. vm_compute. reflexivity. Qed.

(** The mean of up to 512 x 512 samples that are all 128 is 128.0. *)
Lemma mean_exact_128 (n : Z) :
  (1 <= n <= max_pixels)%Z ->
  (float_of n =? 0) = false /\ float_of (128 * n) / float_of n = 128.
Proof.
  intros Hn.
  assert (Hb : (max_pixels < 2 ^ 50)%Z) by reflexivity.
  pose proof (all_from_spec _ _ _ mean_exact_128_checked n) as H.
  rewrite Z2Nat.id in H by (unfold max_pixels; lia).
  specialize (H ltac:(lia)). unfold mean_exact_at in H.
  apply andb_prop in H as [H0 H1].
  rewrite !float_of_prim_eq by (split; [lia|]; eapply Z.le_lt_trans with (2 ^ 57)%Z; [lia|reflexivity]).
  split.
  - by apply Bool.negb_true_iff.
  - apply FloatAxioms.Leibniz.eqb_spec in H1. exact H1.
Qed.

End PixelCounts.

(** ** [analyze_image] *)

Section PerceptionProperties.
Context `{Cv2}.
Local Open Scope float_scope.

(** What a returned dictionary was computed from. *)
Lemma measure_inv (img : raster rgb) (m : metrics) :
  measure img = Ok m ->
  size img <> 0%Z /\
  mask m = morph_close kernel (morph_open kernel (fmap (M := list) red_pixel <$> img)) /\
  area m = count (Z.ltb 0) (mask m) /\
  area_pct m = float_of (area m) / float_of (size (mask m)) * 100.0.
Proof.
  unfold measure. destruct (size img =? 0)%Z eqn:E; [discriminate|].
  apply Z.eqb_neq in E. unfold truediv.
  destruct (float_of (size _) =? 0); [discriminate|]. cbn [bind].
  intros [= <-]. cbn [mask area area_pct]. auto.
Qed.

Lemma analyze_image_inv (pil_img : pil_image) (target_size : Z) (m : metrics) :
  analyze_image pil_img target_size = Ok m ->
  exists img, load pil_img target_size = Ok img /\ measure img = Ok m.
Proof.
  unfold analyze_image. destruct (load pil_img target_size) as [img|];
    [|discriminate]. cbn [bind]. eauto.
Qed.

(** An image within the size cap is measured as it is. *)
Lemma load_within_cap (pil_img : pil_image) (target_size : Z) :
  (Z.max (height (im_pixels pil_img)) (width (im_pixels pil_img)) <= target_size)%Z ->
  load pil_img target_size = Ok (im_pixels pil_img).
Proof.
  intros Hle. unfold load.
  destruct (target_size <? _)%Z eqn:E; [|reflexivity].
  apply Z.ltb_lt in E. lia.
Qed.

(** The metrics of a uniform mid-gray array. *)
Lemma measure_uniform_gray (h w : nat) :
  (1 <= h)%nat -> (1 <= w)%nat -> (Z.of_nat (h * w) <= max_pixels)%Z ->
  exists m, measure (uniform h w (128, 128, 128)%Z) = Ok m /\
    area m = 0%Z /\ redness m = 128 /\ mask m = uniform h w 0%Z.
Proof.
  intros Hh Hw Hn.
  assert (Hpos : (1 <= Z.of_nat (h * w))%Z) by nia.
  destruct (mean_exact_128 (Z.of_nat (h * w))) as [Hnz Hmean]; [lia|].
  unfold measure. rewrite size_uniform.
  destruct (Z.of_nat (h * w) =? 0)%Z eqn:E; [apply Z.eqb_eq in E; lia|].
  cbv zeta. rewrite !fmap_uniform.
  change (red_pixel (128, 128, 128)%Z) with 0%Z.
  rewrite morph_zero, size_uniform.
  rewrite (count_uniform_false (Z.ltb 0) h w 0%Z) by reflexivity.
  unfold truediv. rewrite Hnz. cbn [bind].
  eexists. split; [reflexivity|]. cbn [area redness mask].
  split; [reflexivity|]. split; [|reflexivity].
  change (0 <? 0)%Z with false. cbv iota.
  unfold mean_of. rewrite concat_uniform, foldr_add_replicate, length_replicate.
  exact Hmean.
Qed.

(** C7. In every dictionary [analyze_image] returns, [area] is the number
    of nonzero mask entries, the mask has the dimensions of the processed
    image, and [area_pct] is [area] divided by the pixel count of the
    processed image, times 100. *)
Theorem area_is_mask_population (pil_img : pil_image) (target_size : Z) (m : metrics) :
  analyze_image pil_img target_size = Ok m ->
  area m = count (Z.ltb 0) (mask m) /\
  exists img : raster rgb,
    load pil_img target_size = Ok img /\
    same_shape (mask m) img /\
    size (mask m) = size img /\
    area_pct m = float_of (area m) / float_of (size img) * 100.0.
Proof.
  intros Hm. apply analyze_image_inv in Hm as (img & Hload & Hm).
  apply measure_inv in Hm as (_ & Hmask & Harea & Hpct).
  split; [exact Harea|]. exists img. split; [exact Hload|].
  assert (Hshape : same_shape (mask m) img).
  { rewrite Hmask. eapply same_shape_trans; [apply same_shape_morph|].
    apply same_shape_fmap. }
  split; [exact Hshape|]. split; [by apply same_shape_size|].
  rewrite <- (same_shape_size _ _ Hshape). exact Hpct.
Qed.

(** C4 fails on the code: for an image 1 pixel wide and 1024 pixels high
    the scaled width is [int(1 * 0.5) = 0], and [cv2.resize] rejects the
    empty target size, so [analyze_image] raises instead of returning a
    dictionary. *)
Theorem thin_image_is_rejected (pil_img : pil_image) :
  height (im_pixels pil_img) = 1024%Z ->
  width (im_pixels pil_img) = 1%Z ->
  scaled_dims 1024 1 default_target_size = Ok (0, 512)%Z /\
  analyze_image pil_img default_target_size = Raise CvError.
Proof.
  intros Hh Hw. split; [vm_compute; reflexivity|].
  unfold analyze_image, load. rewrite Hh, Hw.
  change (default_target_size <? Z.max 1024 1)%Z with true. cbv iota.
  change (scaled_dims 1024 1 default_target_size) with (@Ok (Z * Z) (0, 512)%Z).
  reflexivity.
Qed.

(** C8 fails on the code. The uniform mid-gray image 1 pixel wide and
    1024 pixels high, every pixel (128, 128, 128), is downscaled to a width
    of [int(1 * 0.5) = 0], which [cv2.resize] rejects: [analyze_image]
    raises and returns neither an area nor a redness. A uniform mid-gray
    image that is measured as it is (both sides within the size cap, at
    most 512 x 512 pixels) does what the claim says: [area = 0], an empty
    mask, and [redness] equal to the mean red value of the whole image,
    128.0. *)
Theorem thin_gray_image_has_no_metrics (name : string) :
  analyze_image
    {| im_pixels := uniform 1024 1 (128, 128, 128)%Z; im_filename := name |}
    default_target_size = Raise CvError /\
  forall (h w : nat) (target_size : Z),
    (1 <= h)%nat -> (1 <= w)%nat ->
    (Z.of_nat h <= target_size)%Z -> (Z.of_nat w <= target_size)%Z ->
    (target_size <= 512)%Z ->
    exists m,
      analyze_image
        {| im_pixels := uniform h w (128, 128, 128)%Z; im_filename := name |}
        target_size = Ok m /\
      area m = 0%Z /\
      redness m = 128 /\
      redness m =
        mean_of (concat (fmap (M := list) red <$> uniform h w (128, 128, 128)%Z)) /\
      mask m = uniform h w 0%Z.
Proof.
  split.
  - set (pil := {| im_pixels := uniform 1024 1 (128, 128, 128)%Z;
                   im_filename := name |}).
    assert (Hh : height (im_pixels pil) = 1024%Z) by (vm_compute; reflexivity).
    assert (Hw : width (im_pixels pil) = 1%Z) by (vm_compute; reflexivity).
    unfold analyze_image, load. rewrite Hh, Hw.
    change (default_target_size <? Z.max 1024 1)%Z with true. cbv iota.
    change (scaled_dims 1024 1 default_target_size) with (@Ok (Z * Z) (0, 512)%Z).
    reflexivity.
  - intros h w target_size Hh Hw Hht Hwt Ht.
    assert (Hn : (Z.of_nat (h * w) <= max_pixels)%Z) by (unfold max_pixels; nia).
    destruct (measure_uniform_gray h w Hh Hw Hn) as (m & Hm & Ha & Hr & Hmask).
    exists m. split.
    + unfold analyze_image. rewrite load_within_cap; [exact Hm|].
      cbn [im_pixels]. unfold height, width, uniform.
      destruct h as [|h']; [lia|]. cbn [replicate].
      rewrite !length_cons, !length_replicate. lia.
    + repeat split; try assumption.
      rewrite Hr, fmap_uniform, concat_uniform. unfold mean_of.
      rewrite foldr_add_replicate, length_replicate. symmetry.
      apply mean_exact_128. nia.
Qed.

(** The dictionary of a measured image, classified with no previous
    observation: the five numbers go through the rule chain unchanged, and
    a dark or blurred capture is flagged as poor. *)
Lemma classify_measured (m : metrics) :
  decide_status (metrics_dict m) None =
    Ok (decision_of 0.0 (redness m) (exudate_ratio m) (blur_var m) (brightness m)) /\
  (((blur_var m <? 60.0) || (brightness m <? 30.0))%bool = true ->
   d_quality
     (decision_of 0.0 (redness m) (exudate_ratio m) (blur_var m) (brightness m)) =
   QualityPoor).
Proof.
  split; [reflexivity|]. intros Hq.
  rewrite decide_fields. cbn [d_quality]. rewrite run_rules_unfold.
  unfold quality_check. rewrite Hq. reflexivity.
Qed.

End PerceptionProperties.

(** ** [analyze_image] on sample images *)

Section PerceptionExamples.
Local Open Scope float_scope.
Local Existing Instance Samples.cv_sample.

Lemma area_is_mask_population_example :
  exists m : metrics,
    analyze_image (Samples.image (uniform 8 9 (200, 20, 20)%Z)) 512 = Ok m /\
    area m = count (Z.ltb 0) (mask m) /\
    area m = 72%Z /\ area_pct m = 100.
Proof.
  destruct (analyze_image (Samples.image (uniform 8 9 (200, 20, 20)%Z)) 512)
    as [m|] eqn:Hm; [|vm_compute in Hm; discriminate Hm].
  exists m. split; [reflexivity|]. split.
  - apply (area_is_mask_population _ _ m Hm).
  - vm_compute in Hm. injection Hm as <-. split; reflexivity.
Defined.

Lemma thin_gray_image_has_no_metrics_example :
  analyze_image (Samples.image (uniform 1024 1 Samples.gray_128))
    default_target_size = Raise CvError /\
  exists m : metrics,
    analyze_image (Samples.image (uniform 4 5 Samples.gray_128)) 512 = Ok m /\
    area m = 0%Z /\ redness m = 128.
Proof.
  destruct (thin_gray_image_has_no_metrics "wound.png") as [Hthin Hcap].
  split; [exact Hthin|].
  destruct (Hcap 4%nat 5%nat 512%Z) as (m & Hm & Ha & Hr & _); try lia.
  exists m. split; [exact Hm|]. split; assumption.
Defined.

Lemma thin_image_is_rejected_example :
  analyze_image (Samples.image (uniform 1024 1 (0, 0, 0)%Z)) default_target_size =
    Raise CvError.
Proof.
  apply (thin_image_is_rejected (Samples.image (uniform 1024 1 (0, 0, 0)%Z)));
    vm_compute; reflexivity.
Defined.

End PerceptionExamples.

(** ** More of the order of binary64 numbers *)

Section FloatOrderMore.
Local Open Scope float_scope.

Local Ltac cmp_cases :=
  repeat match goal with
  | |- context [Z.compare ?a ?b] => destruct (Z.compare_spec a b)
  | H : context [Z.compare ?a ?b] |- _ => destruct (Z.compare_spec a b)
  | |- context [Pos.compare_cont Eq ?a ?b] =>
      change (Pos.compare_cont Eq a b) with (Pos.compare a b);
      destruct (Pos.compare_spec a b)
  | H : context [Pos.compare_cont Eq ?a ?b] |- _ =>
      change (Pos.compare_cont Eq a b) with (Pos.compare a b) in H;
      destruct (Pos.compare_spec a b)
  end;
  subst; simpl in *; try congruence; try lia.

Lemma SFcompare_eq_lt (x y z : spec_float) :
  SFcompare x y = Some Eq -> SFcompare y z = Some Lt -> SFcompare x z = Some Lt.
Proof.
  destruct x as [[]|[]| |[] m1 e1], y as [[]|[]| |[] m2 e2], z as [[]|[]| |[] m3 e3];
    simpl; try congruence; intros H1 H2; f_equal;
    injection H1 as H1; injection H2 as H2; cmp_cases.
Qed.

Lemma SFcompare_eq_eq (x y z : spec_float) :
  SFcompare x y = Some Eq -> SFcompare y z = Some Eq -> SFcompare x z = Some Eq.
Proof.
  destruct x as [[]|[]| |[] m1 e1], y as [[]|[]| |[] m2 e2], z as [[]|[]| |[] m3 e3];
    simpl; try congruence; intros H1 H2; f_equal;
    injection H1 as H1; injection H2 as H2; cmp_cases.
Qed.

Lemma leb_trans (x y z : float) :
  (x <=? y) = true -> (y <=? z) = true -> (x <=? z) = true.
Proof.
  rewrite !leb_compare. intros [H1|H1] [H2|H2].
  - left. eapply SFcompare_lt_trans; eauto.
  - left. eapply SFcompare_lt_eq; eauto.
  - left. eapply SFcompare_eq_lt; eauto.
  - right. eapply SFcompare_eq_eq; eauto.
Qed.

Lemma leb_ltb_trans (x y z : float) :
  (x <=? y) = true -> (y <? z) = true -> (x <? z) = true.
Proof.
  rewrite !ltb_compare, leb_compare. intros [H1|H1] H2.
  - eapply SFcompare_lt_trans; eauto.
  - eapply SFcompare_eq_lt; eauto.
Qed.

(** Numbers that compare are not NaN. *)
Lemma leb_not_nan (x y : float) :
  (x <=? y) = true -> is_nan x = false /\ is_nan y = false.
Proof.
  rewrite leb_compare, !is_nan_spec. intros H.
  split; intros E; rewrite E in H; destruct H as [H|H];
    try discriminate H; destruct (Prim2SF x); discriminate H.
Qed.

Lemma ltb_not_nan (x y : float) :
  (x <? y) = true -> is_nan x = false /\ is_nan y = false.
Proof.
  intros H. apply leb_not_nan. apply leb_compare. left. by apply ltb_compare.
Qed.

End FloatOrderMore.

(** ** The status as a decision table *)

Section StatusTable.
Local Open Scope float_scope.
Implicit Types (curr : gmap string value) (prev : option (gmap string value)).

(** What each rule does to the status, as one expression. *)
Lemma exudate_rule_level (exud : float) (reason : list string) :
  (exudate_rule exud (Monitor, reason)).1 = exudate_status exud.
Proof.
  unfold exudate_rule, exudate_status, EXUDATE_HIGH, EXUDATE_MED.
  destruct (0.08 <=? exud), (0.03 <=? exud); reflexivity.
Qed.

Lemma delta_rule_level (delta : float) (status : status) (reason : list string) :
  (delta_rule delta (status, reason)).1 = delta_status delta status.
Proof.
  unfold delta_rule, delta_status, DELTA_URGENT, DELTA_CONCERNING.
  destruct (delta <? -5.0) eqn:Es.
  - destruct (15.0 <? delta) eqn:E1;
      [pose proof (ltb_trans _ _ _ E1 Es); discriminate|].
    destruct (5.0 <? delta) eqn:E2;
      [pose proof (ltb_trans _ _ _ E2 Es); discriminate|].
    rewrite (ltb_not_leb _ _ Es). reflexivity.
  - destruct (15.0 <? delta), (5.0 <? delta), (delta <=? 15.0),
      (-5.0 <=? delta), (delta <=? 5.0), status; reflexivity.
Qed.

Lemma redness_rule_level (redness : float) (status : status) (reason : list string) :
  (redness_rule redness (status, reason)).1 = redness_status redness status.
Proof.
  unfold redness_rule, redness_status, REDNESS_URGENT, REDNESS_CONCERNING.
  destruct (150.0 <? redness), (120.0 <? redness), status; reflexivity.
Qed.

Lemma run_rules_level (delta redness exud blur_var brightness : float) :
  (run_rules delta redness exud blur_var brightness).2.1 =
    redness_status redness (delta_status delta (exudate_status exud)).
Proof.
  rewrite run_rules_unfold. cbn [fst snd].
  pose proof (exudate_rule_level exud (quality_check blur_var brightness).2) as H1.
  destruct (exudate_rule exud _) as [s1 r1]. cbn [fst] in H1.
  pose proof (delta_rule_level delta s1 r1) as H2.
  destruct (delta_rule delta _) as [s2 r2]. cbn [fst] in H2.
  rewrite redness_rule_level. congruence.
Qed.

(** The status the rule chain reaches, read off its comparisons. *)
Lemma run_rules_status_table (delta redness exud blur_var brightness : float) :
  let st := (run_rules delta redness exud blur_var brightness).2.1 in
  (st = Urgent <->
     (150.0 <? redness) = true \/ (15.0 <? delta) = true \/
     ((0.08 <=? exud) = true /\ (delta <? -5.0) = false)) /\
  (st = Stable <-> (delta <? -5.0) = true /\ (120.0 <? redness) = false) /\
  (st = Concerning <->
     (150.0 <? redness) = false /\ (15.0 <? delta) = false /\
     ((0.08 <=? exud) = false \/ (delta <? -5.0) = true) /\
     ((120.0 <? redness) = true \/
      ((delta <? -5.0) = false /\
       ((0.03 <=? exud) = true \/
        ((5.0 <? delta) = true /\ (delta <=? 15.0) = true))))) /\
  (st = Monitor <->
     (120.0 <? redness) = false /\ (delta <? -5.0) = false /\
     (15.0 <? delta) = false /\
     ((5.0 <? delta) = false \/ (delta <=? 15.0) = false) /\
     (0.03 <=? exud) = false).
Proof.
  intros st. subst st. rewrite run_rules_level.
  unfold redness_status, delta_status, exudate_status, raise_to_concerning.
  assert (C1 : (delta <? -5.0) = true -> (15.0 <? delta) = false).
  { intros H. destruct (15.0 <? delta) eqn:E; [|reflexivity].
    pose proof (ltb_trans _ _ _ E H). discriminate. }
  assert (C4 : (150.0 <? redness) = true -> (120.0 <? redness) = true).
  { intros H. eapply ltb_trans; [|exact H]. reflexivity. }
  assert (C5 : (0.08 <=? exud) = true -> (0.03 <=? exud) = true).
  { intros H. eapply leb_trans; [|exact H]. reflexivity. }
  destruct (delta <? -5.0).
  all: try rewrite (C1 eq_refl).
  all: clear C1; destruct (150.0 <? redness).
  all: try rewrite (C4 eq_refl).
  all: clear C4; destruct (0.08 <=? exud).
  all: try rewrite (C5 eq_refl).
  all: clear C5.
  all: repeat match goal with
       | |- context [?a <? ?b] => destruct (a <? b)
       | |- context [?a <=? ?b] => destruct (a <=? b)
       end; cbn.
  all: repeat split; intros; try congruence; try tauto; intuition congruence.
Qed.

(** One rule at a time, a worse reading never gives a milder status. *)
Lemma raise_to_concerning_mono (s s' : status) :
  (severity s <= severity s')%Z ->
  (severity (raise_to_concerning s) <= severity (raise_to_concerning s'))%Z.
Proof. destruct s, s'; simpl; lia. Qed.

Lemma exudate_status_mono (e e' : float) :
  (e <=? e') = true ->
  (severity (exudate_status e) <= severity (exudate_status e'))%Z.
Proof.
  intros H. unfold exudate_status.
  destruct (0.08 <=? e) eqn:E1; [rewrite (leb_trans _ _ _ E1 H)|].
  - simpl. lia.
  - destruct (0.03 <=? e) eqn:E2; [rewrite (leb_trans _ _ _ E2 H)|];
      destruct (0.08 <=? e'); try destruct (0.03 <=? e'); simpl; lia.
Qed.

Lemma delta_status_mono (d d' : float) (s s' : status) :
  (d <=? d') = true -> (severity s <= severity s')%Z ->
  (severity (delta_status d s) <= severity (delta_status d' s'))%Z.
Proof.
  intros H Hs. unfold delta_status.
  destruct (leb_not_nan _ _ H) as [Hn Hn'].
  destruct (d <? -5.0) eqn:Es.
  { destruct (d' <? -5.0); [simpl; lia|].
    repeat match goal with
    | |- context [if ?b then _ else _] => destruct b
    end; destruct s'; simpl; lia. }
  destruct (d' <? -5.0) eqn:Es';
    [rewrite (leb_ltb_trans _ _ _ H Es') in Es; discriminate|].
  destruct (15.0 <? d) eqn:E1; [rewrite (ltb_leb_trans _ _ _ E1 H); simpl; lia|].
  destruct (15.0 <? d') eqn:E1';
    [repeat match goal with
     | |- context [if ?b then _ else _] => destruct b
     end; destruct s; simpl; lia|].
  rewrite (not_ltb_leb 15.0 d eq_refl Hn E1).
  rewrite (not_ltb_leb 15.0 d' eq_refl Hn' E1').
  rewrite !Bool.andb_true_r.
  destruct (5.0 <? d) eqn:E2; [rewrite (ltb_leb_trans _ _ _ E2 H)|].
  - by apply raise_to_concerning_mono.
  - destruct (5.0 <? d'); [|exact Hs].
    destruct s, s'; simpl in *; lia.
Qed.

Lemma redness_status_mono (r r' : float) (s s' : status) :
  (r <=? r') = true -> (severity s <= severity s')%Z ->
  (severity (redness_status r s) <= severity (redness_status r' s'))%Z.
Proof.
  intros H Hs. unfold redness_status.
  destruct (150.0 <? r) eqn:E1; [rewrite (ltb_leb_trans _ _ _ E1 H); simpl; lia|].
  destruct (150.0 <? r') eqn:E1';
    [repeat match goal with
     | |- context [if ?b then _ else _] => destruct b
     end; destruct s; simpl; lia|].
  destruct (120.0 <? r) eqn:E2; [rewrite (ltb_leb_trans _ _ _ E2 H)|].
  - by apply raise_to_concerning_mono.
  - destruct (120.0 <? r'); [|exact Hs].
    destruct s, s'; simpl in *; lia.
Qed.

End StatusTable.

(** ** Further properties of [decide_status] *)

Section DecisionTable.
Local Open Scope float_scope.
Implicit Types (curr : gmap string value) (prev : option (gmap string value)).

(** X1. The returned status as a decision table over the three readings.
    [Urgent]: redness above 150, or growth above 15 percent, or exudate
    at least 0.08 without a shrink of more than 5 percent. [Stable]: a
    shrink of more than 5 percent and redness not above 120. [Concerning]:
    not [Urgent], and redness above 120 or, without such a shrink, exudate
    at least 0.03 or growth above 5 percent. [Monitor]: none of these. *)
Theorem status_decision_table curr prev (d : decision) (redness exud : float) :
  decide_status curr prev = Ok d ->
  py_float (get curr "redness" (PyFloat 0.0)) = Ok redness ->
  py_float (get curr "exudate_ratio" (PyFloat 0.0)) = Ok exud ->
  (d_status d = Urgent <->
     (150.0 <? redness) = true \/ (15.0 <? d_delta_pct d) = true \/
     ((0.08 <=? exud) = true /\ (d_delta_pct d <? -5.0) = false)) /\
  (d_status d = Stable <->
     (d_delta_pct d <? -5.0) = true /\ (120.0 <? redness) = false) /\
  (d_status d = Concerning <->
     (150.0 <? redness) = false /\ (15.0 <? d_delta_pct d) = false /\
     ((0.08 <=? exud) = false \/ (d_delta_pct d <? -5.0) = true) /\
     ((120.0 <? redness) = true \/
      ((d_delta_pct d <? -5.0) = false /\
       ((0.03 <=? exud) = true \/
        ((5.0 <? d_delta_pct d) = true /\ (d_delta_pct d <=? 15.0) = true))))) /\
  (d_status d = Monitor <->
     (120.0 <? redness) = false /\ (d_delta_pct d <? -5.0) = false /\
     (15.0 <? d_delta_pct d) = false /\
     ((5.0 <? d_delta_pct d) = false \/ (d_delta_pct d <=? 15.0) = false) /\
     (0.03 <=? exud) = false).
Proof.
  intros Hd Hr He.
  apply decide_status_inv in Hd
    as (delta & r & e & blur_var & brightness & _ & Hr' & He' & _ & _ & ->).
  rewrite Hr in Hr'. injection Hr' as <-.
  rewrite He in He'. injection He' as <-.
  rewrite decide_fields. cbn [d_status d_delta_pct].
  apply run_rules_status_table.
Qed.

Lemma status_decision_table_example :
  exists d : decision,
    decide_status Samples.shrinking_curr (Some Samples.area_100) = Ok d /\
    (d_status d = Stable <->
       (d_delta_pct d <? -5.0) = true /\ (120.0 <? 50.0) = false).
Proof.
  eexists. split; [vm_compute; reflexivity|].
  eapply (status_decision_table Samples.shrinking_curr (Some Samples.area_100)
            _ 50.0 0.09); vm_compute; reflexivity.
Defined.

(** X2. A worse reading never gives a milder status: when redness, exudate
    ratio and [delta_pct] of one call are each at most those of another,
    the status of the first is at most as severe as that of the second, in
    the order Stable, Monitor, Concerning, Urgent. *)
Theorem worse_reading_never_milder curr curr' prev prev' (d d' : decision)
    (redness redness' exud exud' : float) :
  decide_status curr prev = Ok d ->
  decide_status curr' prev' = Ok d' ->
  py_float (get curr "redness" (PyFloat 0.0)) = Ok redness ->
  py_float (get curr' "redness" (PyFloat 0.0)) = Ok redness' ->
  py_float (get curr "exudate_ratio" (PyFloat 0.0)) = Ok exud ->
  py_float (get curr' "exudate_ratio" (PyFloat 0.0)) = Ok exud' ->
  (redness <=? redness') = true ->
  (exud <=? exud') = true ->
  (d_delta_pct d <=? d_delta_pct d') = true ->
  (severity (d_status d) <= severity (d_status d'))%Z.
Proof.
  intros Hd Hd' Hr Hr' He He' Hrr Hee Hdd.
  apply decide_status_inv in Hd
    as (delta & r & e & b & br & _ & Hr1 & He1 & _ & _ & ->).
  apply decide_status_inv in Hd'
    as (delta' & r' & e' & b' & br' & _ & Hr2 & He2 & _ & _ & ->).
  rewrite Hr in Hr1. injection Hr1 as <-. rewrite Hr' in Hr2. injection Hr2 as <-.
  rewrite He in He1. injection He1 as <-. rewrite He' in He2. injection He2 as <-.
  rewrite !decide_fields in *. cbn [d_status d_delta_pct] in *.
  rewrite !run_rules_level.
  apply redness_status_mono; [exact Hrr|].
  apply delta_status_mono; [exact Hdd|].
  by apply exudate_status_mono.
Qed.

Lemma worse_reading_never_milder_example :
  exists d d' : decision,
    decide_status Samples.sharp_curr None = Ok d /\
    decide_status Samples.red_curr None = Ok d' /\
    d_status d = Monitor /\ d_status d' = Urgent /\
    (severity (d_status d) <= severity (d_status d'))%Z.
Proof.
  eexists. eexists.
  split; [vm_compute; reflexivity|]. split; [vm_compute; reflexivity|].
  split; [reflexivity|]. split; [reflexivity|].
  eapply (worse_reading_never_milder Samples.sharp_curr Samples.red_curr None None
            _ _ 0.0 160.0 0.0 0.0); vm_compute; reflexivity.
Defined.

(** X3. A first observation (no previous dictionary, or an empty one) has
    [delta_pct = 0], so its status is never [Stable] and its tag list
    always holds [area_change_pct:0.0]. *)
Theorem first_observation_is_never_stable curr prev (d : decision) :
  decide_status curr prev = Ok d ->
  truthy prev = false ->
  d_delta_pct d = 0.0 /\
  d_status d <> Stable /\
  exists reason : list string,
    d_explanation d = explanation_of reason /\
    "area_change_pct:0.0" ∈ reason.
Proof.
  intros Hd Ht.
  apply decide_status_inv in Hd
    as (delta & r & e & b & br & Hdelta & _ & _ & _ & _ & ->).
  rewrite (compute_delta_pct_falsy curr prev Ht) in Hdelta. injection Hdelta as <-.
  rewrite decide_fields. cbn [d_status d_delta_pct d_explanation].
  split; [reflexivity|]. split.
  - intros Hs. apply run_rules_status_table in Hs as [Hs _]. discriminate Hs.
  - exists (run_rules 0.0 r e b br).2.2. split; [reflexivity|].
    rewrite run_rules_unfold. cbn [fst snd].
    destruct (exudate_rule e _) as [s1 r1].
    rewrite (delta_rule_steady 0.0 s1 r1) by reflexivity.
    destruct (redness_rule_reason r
      (s1, r1 ++ ["area_change_pct:" +:+ format_f 1 0.0])) as [tags ->].
    cbn [snd]. rewrite !elem_of_app. left. right.
    change ("area_change_pct:" +:+ format_f 1 0.0) with "area_change_pct:0.0".
    apply list_elem_of_singleton. reflexivity.
Qed.

Lemma first_observation_is_never_stable_example :
  exists d : decision,
    decide_status Samples.red_curr (Some ∅) = Ok d /\
    d_delta_pct d = 0.0 /\ d_status d = Urgent.
Proof.
  eexists. split; [vm_compute; reflexivity|]. split; [|reflexivity].
  eapply (first_observation_is_never_stable Samples.red_curr (Some ∅));
    vm_compute; reflexivity.
Defined.

End DecisionTable.

(** ** The pixel test and the mask *)

Section PixelTest.
Local Open Scope float_scope.

Lemma trunc_scaled_checked :
  all_from (fun g => (trunc (float_of g * 1.1) =? 11 * g / 10)%Z) 256 0 = true.
Proof. vm_compute. reflexivity. Qed.

Lemma bright_checked :
  all_from (fun s => Bool.eqb (30 <? float_of s / 3) (90 <? s)%Z) 766 0 = true.
Proof. vm_compute. reflexivity. Qed.

(** On 8-bit samples [(G * 1.1).astype(int32)] is the integer [11 G / 10]. *)
Lemma trunc_scaled (g : Z) :
  (0 <= g <= 255)%Z -> trunc (float_of g * 1.1) = (11 * g / 10)%Z.
Proof.
  intros Hg. apply Z.eqb_eq.
  apply (all_from_spec _ _ _ trunc_scaled_checked g). lia.
Qed.

(** [(R + G + B) / 3 > 30] is [R + G + B > 90]. *)
Lemma bright_sum (s : Z) :
  (0 <= s <= 765)%Z -> (30 <? float_of s / 3) = (90 <? s)%Z.
Proof.
  intros Hs. apply Bool.eqb_prop.
  apply (all_from_spec _ _ _ bright_checked s). lia.
Qed.

Lemma red_pixel_cases (p : rgb) : red_pixel p = 0%Z \/ red_pixel p = 255%Z.
Proof. unfold red_pixel. destruct (red_cond p && bright_cond p); auto. Qed.

(** The two conditions of the mask on an 8-bit pixel, over the integers. *)
Lemma red_test_integer (p : rgb) :
  uint8 p -> red_cond p && bright_cond p = true <-> red_dominant p.
Proof.
  intros (Hr & Hg & Hb).
  unfold red_cond, bright_cond, red_dominant. cbv zeta.
  rewrite (trunc_scaled (green p) Hg), (trunc_scaled (blue p) Hb).
  rewrite (bright_sum (red p + green p + blue p)) by lia.
  rewrite !Bool.andb_true_iff, !Z.ltb_lt.
  pose proof (Z.div_mod (11 * green p) 10 ltac:(lia)).
  pose proof (Z.mod_pos_bound (11 * green p) 10 ltac:(lia)).
  pose proof (Z.div_mod (11 * blue p) 10 ltac:(lia)).
  pose proof (Z.mod_pos_bound (11 * blue p) 10 ltac:(lia)).
  lia.
Qed.

Lemma red_pixel_not_dominant (p : rgb) :
  uint8 p -> ~ red_dominant p -> red_pixel p = 0%Z.
Proof.
  intros Hp Hn. unfold red_pixel.
  destruct (red_cond p && bright_cond p) eqn:E; [|done].
  by apply (red_test_integer p Hp) in E.
Qed.

End PixelTest.

Section PixelProperties.
Local Open Scope Z_scope.

(** X4. On 8-bit pixels the floating-point mask test of [analyze_image] is
    an exact integer test: a pixel is flagged (255 rather than 0) exactly
    when [10 R > 11 G], [10 R > 11 B], [R > 70] and [R + G + B > 90]. *)
Theorem red_pixel_integer_test (p : rgb) :
  uint8 p ->
  (red_pixel p = 255 <-> red_dominant p) /\
  (red_pixel p = 0 <-> ~ red_dominant p).
Proof.
  intros Hp. pose proof (red_test_integer p Hp) as Hiff.
  unfold red_pixel. destruct (red_cond p && bright_cond p).
  - split; split; intros; try tauto; discriminate.
  - assert (~ red_dominant p) by (intros H; apply Hiff in H; discriminate).
    split; split; intros; try tauto; discriminate.
Qed.

Lemma red_pixel_integer_test_example :
  red_pixel (200, 20, 20) = 255 /\ red_pixel (128, 128, 128) = 0.
Proof.
  split.
  - apply (red_pixel_integer_test (200, 20, 20)); unfold uint8, red_dominant;
      cbn; lia.
  - apply (red_pixel_integer_test (128, 128, 128)); unfold uint8, red_dominant;
      cbn; lia.
Defined.

End PixelProperties.

(** ** Invariants of the mask *)

Section MaskInvariants.
Local Open Scope Z_scope.

Lemma Forall_imap {A B} (P : B -> Prop) (f : nat -> A -> B) (l : list A) :
  (forall i a, P (f i a)) -> Forall P (imap f l).
Proof.
  revert f. induction l as [|a l IH]; intros f Hf; simpl; constructor.
  - apply Hf.
  - apply IH. intros i b. apply Hf.
Qed.

Lemma at_elem_of (m : raster Z) (y x v : Z) :
  at_ m y x = Some v -> exists row, row ∈ m /\ v ∈ row.
Proof.
  unfold at_. destruct ((0 <=? y) && (0 <=? x)); [|discriminate].
  destruct (m !! Z.to_nat y) as [row|] eqn:E; simpl; [|discriminate].
  intros Hv. exists row. split; eapply list_elem_of_lookup_2; eauto.
Qed.

Lemma neighbours_binary (k : list (Z * Z)) (m : raster Z) (y x : nat) :
  binary_mask m ->
  Forall (fun v => v = 0 \/ v = 255) (neighbours k m y x).
Proof.
  intros Hm. apply Forall_forall. intros v Hv. unfold neighbours in Hv.
  apply list_elem_of_omap in Hv as (d & _ & Hd).
  apply at_elem_of in Hd as (row & Hrow & Hv).
  unfold binary_mask in Hm. rewrite Forall_forall in Hm.
  specialize (Hm row Hrow). rewrite Forall_forall in Hm. by apply Hm.
Qed.

Lemma foldr_min_binary (l : list Z) :
  Forall (fun v => v = 0 \/ v = 255) l ->
  foldr Z.min 255 l = 0 \/ foldr Z.min 255 l = 255.
Proof. induction 1 as [|v l Hv _ IH]; simpl; lia. Qed.

Lemma foldr_max_binary (l : list Z) :
  Forall (fun v => v = 0 \/ v = 255) l ->
  foldr Z.max 0 l = 0 \/ foldr Z.max 0 l = 255.
Proof. induction 1 as [|v l Hv _ IH]; simpl; lia. Qed.

Lemma erode_binary (k : list (Z * Z)) (m : raster Z) :
  binary_mask m -> binary_mask (erode k m).
Proof.
  intros Hm. unfold binary_mask, erode. apply Forall_imap. intros y row.
  apply Forall_imap. intros x _. by apply foldr_min_binary, neighbours_binary.
Qed.

Lemma dilate_binary (k : list (Z * Z)) (m : raster Z) :
  binary_mask m -> binary_mask (dilate k m).
Proof.
  intros Hm. unfold binary_mask, dilate. apply Forall_imap. intros y row.
  apply Forall_imap. intros x _. by apply foldr_max_binary, neighbours_binary.
Qed.

Lemma red_mask_binary (img : raster rgb) :
  binary_mask (fmap (M := list) red_pixel <$> img).
Proof.
  unfold binary_mask. apply Forall_fmap, Forall_forall. intros row _.
  apply Forall_fmap, Forall_forall. intros p _. apply red_pixel_cases.
Qed.

Lemma count_bounds {A} (P : A -> bool) (a : raster A) :
  0 <= count P a <= size a.
Proof.
  unfold count, size. split; [lia|].
  apply Nat2Z.inj_le, length_filter.
Qed.

(** A uniform mask with a valid sample stays as it is under erosion and
    dilation. *)
Lemma foldr_min_const (v : Z) (l : list Z) :
  v <= 255 -> Forall (eq v) l -> l <> [] -> foldr Z.min 255 l = v.
Proof.
  intros Hv H Hne.
  assert (Hge : forall l', Forall (eq v) l' -> v <= foldr Z.min 255 l').
  { induction 1 as [|u l' <- _ IH]; simpl; lia. }
  destruct H as [|u l <- H]; [congruence|]. simpl.
  specialize (Hge l H). lia.
Qed.

Lemma foldr_max_const (v : Z) (l : list Z) :
  0 <= v -> Forall (eq v) l -> l <> [] -> foldr Z.max 0 l = v.
Proof.
  intros Hv H Hne.
  assert (Hle : forall l', Forall (eq v) l' -> foldr Z.max 0 l' <= v).
  { induction 1 as [|u l' <- _ IH]; simpl; lia. }
  destruct H as [|u l <- H]; [congruence|]. simpl.
  specialize (Hle l H). lia.
Qed.

Lemma erode_uniform (h w : nat) (v : Z) :
  v <= 255 -> erode kernel (uniform h w v) = uniform h w v.
Proof.
  intros Hv. unfold erode.
  apply (imap_uniform
           (fun y x => foldr Z.min 255 (neighbours kernel (uniform h w v) y x))).
  intros y x Hy Hx. apply foldr_min_const; [exact Hv|apply neighbours_uniform|].
  apply neighbours_uniform_nonempty; auto using kernel_has_anchor.
Qed.

Lemma dilate_uniform (h w : nat) (v : Z) :
  0 <= v -> dilate kernel (uniform h w v) = uniform h w v.
Proof.
  intros Hv. unfold dilate.
  apply (imap_uniform
           (fun y x => foldr Z.max 0 (neighbours kernel (uniform h w v) y x))).
  intros y x Hy Hx. apply foldr_max_const; [exact Hv|apply neighbours_uniform|].
  apply neighbours_uniform_nonempty; auto using kernel_has_anchor.
Qed.

Lemma morph_uniform (h w : nat) (v : Z) :
  0 <= v <= 255 ->
  morph_close kernel (morph_open kernel (uniform h w v)) = uniform h w v.
Proof.
  intros [H0 H255]. unfold morph_close, morph_open.
  by rewrite (erode_uniform h w v), !(dilate_uniform h w v),
    (erode_uniform h w v).
Qed.

(** A rectangular raster mapped to one value is uniform. *)
Lemma fmap_rectangular_const {A B} (f : A -> B) (c : B) (h w : nat) (a : raster A) :
  rectangular h w a ->
  Forall (Forall (fun x => f x = c)) a ->
  fmap (M := list) f <$> a = uniform h w c.
Proof.
  intros [<- Hw] Hc. unfold uniform.
  induction a as [|row a IH]; [reflexivity|].
  apply Forall_cons in Hw as [Hrow Hw]. apply Forall_cons in Hc as [Hcr Hc].
  cbn [length replicate]. rewrite fmap_cons. f_equal; [|by apply IH].
  subst w. clear -Hcr. induction Hcr as [|x row Hx _ IHr]; [reflexivity|].
  cbn [length replicate]. rewrite fmap_cons. by f_equal.
Qed.

Lemma size_rectangular {A} (h w : nat) (a : raster A) :
  rectangular h w a -> size a = Z.of_nat (h * w).
Proof.
  intros [<- Hw]. unfold size. f_equal.
  induction Hw as [|row a Hrow _ IH]; [reflexivity|].
  cbn [concat length]. rewrite length_app, IH, Hrow. lia.
Qed.

End MaskInvariants.

(** ** Further properties of [analyze_image] *)

Section PerceptionExtras.
Context `{Cv2}.
Local Open Scope float_scope.

(** With at most 512 x 512 pixels neither division of [measure] can fail. *)
Lemma measure_ok (img : raster rgb) :
  (1 <= size img <= max_pixels)%Z ->
  exists m, measure img = Ok m /\
    mask m = morph_close kernel
               (morph_open kernel (fmap (M := list) red_pixel <$> img)) /\
    area m = count (Z.ltb 0) (mask m) /\
    ((area m = 0)%Z ->
     redness m = mean_of (concat (fmap (M := list) red <$> img))).
Proof.
  intros Hsize. unfold measure.
  destruct (size img =? 0)%Z eqn:E; [apply Z.eqb_eq in E; lia|]. cbv zeta.
  set (red_mask := morph_close kernel (morph_open kernel _)).
  assert (Hs : size red_mask = size img).
  { apply same_shape_size. eapply same_shape_trans; [apply same_shape_morph|].
    apply same_shape_fmap. }
  rewrite Hs. unfold truediv.
  destruct (mean_exact_128 (size img) Hsize) as [Hnz _]. rewrite Hnz.
  cbn [bind]. eexists. split; [reflexivity|]. cbn [mask area redness].
  split; [reflexivity|]. split; [reflexivity|].
  intros ->. reflexivity.
Qed.

(** X5. In every dictionary [analyze_image] returns, the mask holds only
    0 and 255 and [area] lies between 0 and the number of mask entries. *)
Theorem mask_is_binary (pil_img : pil_image) (target_size : Z) (m : metrics) :
  analyze_image pil_img target_size = Ok m ->
  binary_mask (mask m) /\ (0 <= area m <= size (mask m))%Z.
Proof.
  intros Hm. apply analyze_image_inv in Hm as (img & _ & Hm).
  apply measure_inv in Hm as (_ & Hmask & Harea & _).
  split.
  - rewrite Hmask. unfold morph_close, morph_open.
    apply erode_binary, dilate_binary, dilate_binary, erode_binary.
    apply red_mask_binary.
  - rewrite Harea. apply count_bounds.
Qed.

(** X6. An image within the size cap, of at most 512 x 512 pixels, always
    yields a dictionary, with a mask of the image's dimensions: neither
    the resize nor a division by zero can fail there. *)
Theorem within_cap_is_measured (h w : nat) (pil_img : pil_image) (target_size : Z) :
  rectangular h w (im_pixels pil_img) ->
  (1 <= h)%nat -> (1 <= w)%nat ->
  (Z.of_nat h <= target_size)%Z -> (Z.of_nat w <= target_size)%Z ->
  (target_size <= 512)%Z ->
  exists m,
    analyze_image pil_img target_size = Ok m /\
    same_shape (mask m) (im_pixels pil_img) /\
    size (mask m) = Z.of_nat (h * w).
Proof.
  intros Hrect Hh Hw Hht Hwt Ht.
  pose proof (size_rectangular h w _ Hrect) as Hsize.
  destruct (measure_ok (im_pixels pil_img)) as (m & Hm & Hmask & _).
  { rewrite Hsize. unfold max_pixels. nia. }
  exists m. split.
  - unfold analyze_image. rewrite load_within_cap; [exact Hm|].
    destruct Hrect as [Hlen Hrows]. unfold height, width.
    destruct (im_pixels pil_img) as [|row rows]; [simpl in Hlen; lia|].
    apply Forall_cons in Hrows as [Hrow _]. rewrite Hlen, Hrow. lia.
  - assert (Hshape : same_shape (mask m) (im_pixels pil_img)).
    { rewrite Hmask. eapply same_shape_trans; [apply same_shape_morph|].
      apply same_shape_fmap. }
    split; [exact Hshape|]. by rewrite (same_shape_size _ _ Hshape).
Qed.

(** X7. An image within the size cap (at most 512 x 512 pixels) in which
    no pixel passes the red-ish test (every grayscale image, for one) has
    an empty mask, [area = 0], and [redness] equal to the mean red value
    of the whole image. *)
Theorem no_red_pixel_no_area (h w : nat) (pil_img : pil_image) (target_size : Z) :
  rectangular h w (im_pixels pil_img) ->
  (1 <= h)%nat -> (1 <= w)%nat ->
  (Z.of_nat h <= target_size)%Z -> (Z.of_nat w <= target_size)%Z ->
  (target_size <= 512)%Z ->
  Forall (Forall (fun p => uint8 p /\ ~ red_dominant p)) (im_pixels pil_img) ->
  exists m,
    analyze_image pil_img target_size = Ok m /\
    mask m = uniform h w 0%Z /\
    area m = 0%Z /\
    redness m = mean_of (concat (fmap (M := list) red <$> im_pixels pil_img)).
Proof.
  intros Hrect Hh Hw Hht Hwt Ht Hpix.
  pose proof (size_rectangular h w _ Hrect) as Hsize.
  destruct (measure_ok (im_pixels pil_img)) as (m & Hm & Hmask & Harea & Hred).
  { rewrite Hsize. unfold max_pixels. nia. }
  assert (Hzero : fmap (M := list) red_pixel <$> im_pixels pil_img =
                  uniform h w 0%Z).
  { apply fmap_rectangular_const; [exact Hrect|].
    eapply Forall_impl; [exact Hpix|]. intros row Hrow.
    eapply Forall_impl; [exact Hrow|]. intros p [Hp Hnot].
    by apply red_pixel_not_dominant. }
  rewrite Hzero, morph_zero in Hmask.
  assert (Ha : area m = 0%Z).
  { rewrite Harea, Hmask. by apply count_uniform_false. }
  exists m. split; [|by auto].
  unfold analyze_image. rewrite load_within_cap; [exact Hm|].
  destruct Hrect as [Hlen Hrows]. unfold height, width.
  destruct (im_pixels pil_img) as [|row rows]; [simpl in Hlen; lia|].
  apply Forall_cons in Hrows as [Hrow _]. rewrite Hlen, Hrow. lia.
Qed.

(** X8. For a single-colour image within the size cap (at most 512 x 512
    pixels) the cleaned mask is all or nothing: every entry is 255 and
    [area] is the pixel count when the colour passes the red-ish test,
    every entry is 0 and [area] is 0 when it does not. *)
Theorem single_colour_all_or_nothing (h w : nat) (c : rgb) (name : string)
    (target_size : Z) :
  (1 <= h)%nat -> (1 <= w)%nat ->
  (Z.of_nat h <= target_size)%Z -> (Z.of_nat w <= target_size)%Z ->
  (target_size <= 512)%Z ->
  exists m,
    analyze_image {| im_pixels := uniform h w c; im_filename := name |}
      target_size = Ok m /\
    mask m = uniform h w (red_pixel c) /\
    area m = (if (0 <? red_pixel c)%Z then Z.of_nat (h * w) else 0%Z).
Proof.
  intros Hh Hw Hht Hwt Ht.
  destruct (measure_ok (uniform h w c)) as (m & Hm & Hmask & Harea & _).
  { rewrite size_uniform. unfold max_pixels. nia. }
  rewrite fmap_uniform, morph_uniform in Hmask
    by (destruct (red_pixel_cases c) as [-> | ->]; lia).
  exists m. split; [|split; [exact Hmask|]].
  - unfold analyze_image. rewrite load_within_cap; [exact Hm|].
    cbn [im_pixels]. unfold height, width, uniform.
    destruct h as [|h]; [lia|]. cbn [replicate].
    rewrite !length_cons, !length_replicate. lia.
  - rewrite Harea, Hmask.
    destruct (red_pixel_cases c) as [-> | ->]; cbn [Z.ltb Z.compare].
    + by apply count_uniform_false.
    + unfold count. rewrite concat_uniform. f_equal.
      induction (h * w)%nat as [|n IH]; [reflexivity|]. cbn [replicate].
      rewrite filter_cons_True by reflexivity. cbn [length]. by rewrite IH.
Qed.

End PerceptionExtras.

(** ** Splitting and stripping *)

Section Splitting.

Lemma split_from_spaces (acc s : str) :
  Forall (fun c => is_space c = true) s ->
  split_from acc s = match acc with [] => [] | _ => [acc] end.
Proof.
  intros Hs. revert acc. induction Hs as [|c s Hc _ IH]; intros acc;
    [reflexivity|].
  simpl. rewrite Hc, (IH []). destruct acc; reflexivity.
Qed.

(** A space ends the word being read. *)
Lemma split_from_app_space (acc l r : str) (sp : ascii) :
  is_space sp = true ->
  split_from acc (l ++ sp :: r) = split_from acc l ++ str_split r.
Proof.
  intros Hsp. revert acc. induction l as [|c l IH]; intros acc; simpl.
  - rewrite Hsp. destruct acc; reflexivity.
  - destruct (is_space c).
    + destruct acc; simpl; by rewrite IH.
    + apply IH.
Qed.

Lemma split_from_word (acc w : str) :
  Forall (fun c => is_space c = false) w -> acc ++ w <> [] ->
  split_from acc w = [acc ++ w].
Proof.
  intros Hw. revert acc. induction Hw as [|c w Hc _ IH]; intros acc Hne; simpl.
  - rewrite app_nil_r in *. destruct acc; [congruence|reflexivity].
  - rewrite Hc, IH, <- app_assoc; [reflexivity|].
    rewrite <- app_assoc. exact Hne.
Qed.

Lemma str_split_word (w : str) : is_word w -> str_split w = [w].
Proof. intros [Hne Hw]. by apply (split_from_word [] w). Qed.

Lemma str_split_lstrip (s : str) : str_split (lstrip s) = str_split s.
Proof.
  unfold str_split. induction s as [|c s IH]; [reflexivity|]. simpl.
  destruct (is_space c) eqn:E; [exact IH|]. simpl. by rewrite E.
Qed.

Lemma rstrip_nil (s : str) :
  rstrip s = [] -> Forall (fun c => is_space c = true) s.
Proof.
  induction s as [|c s IH]; [constructor|]. simpl.
  destruct (rstrip s) as [|r rs]; [|discriminate].
  destruct (is_space c) eqn:E; [|discriminate]. intros _. constructor; auto.
Qed.

Lemma split_from_rstrip (acc s : str) :
  split_from acc (rstrip s) = split_from acc s.
Proof.
  revert acc. induction s as [|c s IH]; intros acc; [reflexivity|]. simpl.
  destruct (rstrip s) as [|r rs] eqn:Er.
  - pose proof (rstrip_nil s Er) as Hsp. destruct (is_space c) eqn:E.
    + simpl. rewrite (split_from_spaces [] s Hsp). destruct acc; reflexivity.
    + simpl. rewrite E. simpl. rewrite (split_from_spaces (acc ++ [c]) s Hsp).
      destruct acc; reflexivity.
  - simpl. destruct (is_space c).
    + rewrite <- (IH []). destruct acc; reflexivity.
    + by rewrite <- IH.
Qed.

(** Stripping changes no word. *)
Lemma str_split_strip (s : str) : str_split (str_strip s) = str_split s.
Proof.
  unfold str_strip. rewrite <- (str_split_lstrip s). apply split_from_rstrip.
Qed.

Lemma length_lstrip (s : str) : (length (lstrip s) <= length s)%nat.
Proof.
  induction s as [|c s IH]; simpl; [lia|]. destruct (is_space c); simpl; lia.
Qed.

Lemma length_rstrip (s : str) : (length (rstrip s) <= length s)%nat.
Proof.
  induction s as [|c s IH]; simpl; [lia|].
  destruct (rstrip s); [destruct (is_space c)|]; simpl in *; lia.
Qed.

Lemma length_strip (s : str) : (length (str_strip s) <= length s)%nat.
Proof.
  unfold str_strip. etrans; [apply length_rstrip|apply length_lstrip].
Qed.

(** Every piece [split] returns is a word. *)
Lemma split_from_words (acc s : str) :
  Forall (fun c => is_space c = false) acc ->
  Forall is_word (split_from acc s).
Proof.
  revert acc. induction s as [|c s IH]; intros acc Hacc; simpl.
  - destruct acc; [constructor|].
    constructor; [split; [discriminate|exact Hacc]|constructor].
  - destruct (is_space c) eqn:E.
    + destruct acc.
      * apply IH. constructor.
      * constructor; [split; [discriminate|exact Hacc]|]. apply IH. constructor.
    + apply IH. apply Forall_app. split; [exact Hacc|]. by repeat constructor.
Qed.

Lemma str_split_words (s : str) : Forall is_word (str_split s).
Proof. apply split_from_words. constructor. Qed.

Lemma space_is_space : is_space space = true.
Proof. reflexivity. Qed.

End Splitting.

(** ** [_wrap_text] *)

Section WrapText.
Local Open Scope Z_scope.

Lemma wrap_loop_words (max_chars : Z) (line : str) (words : list str) :
  Forall is_word words ->
  concat (str_split <$> wrap_loop max_chars line words) = str_split line ++ words.
Proof.
  intros Hw. revert line. induction Hw as [|w rest Hword _ IH]; intros line.
  - simpl. destruct line; simpl; by rewrite ?app_nil_r.
  - simpl. destruct (_ <=? max_chars).
    + rewrite IH, str_split_strip. unfold str_split at 1.
      rewrite (split_from_app_space [] line w space space_is_space).
      rewrite (str_split_word w Hword), <- app_assoc. reflexivity.
    + rewrite fmap_cons. cbn [concat]. rewrite IH.
      by rewrite (str_split_word w Hword).
Qed.

Lemma wrap_loop_bound (max_chars : Z) (all : list str) (line : str)
    (words : list str) :
  Z.of_nat (length line) <= max_chars \/ line ∈ all ->
  Forall (fun w => w ∈ all) words ->
  Forall (fun l => Z.of_nat (length l) <= max_chars \/ l ∈ all)
    (wrap_loop max_chars line words).
Proof.
  intros Hline Hw. revert line Hline.
  induction Hw as [|w rest Hin _ IH]; intros line Hline.
  - simpl. destruct line; [constructor|].
    constructor; [exact Hline|constructor].
  - simpl. destruct (_ <=? max_chars) eqn:E.
    + apply IH. left. apply Z.leb_le in E.
      pose proof (length_strip (line ++ [space] ++ w)) as Hs.
      rewrite !length_app in Hs. simpl in Hs. lia.
    + constructor; [exact Hline|]. apply IH. by right.
Qed.

Lemma wrap_loop_short (max_chars : Z) (line : str) (words : list str) :
  Forall (fun w => Z.of_nat (length w) < max_chars) words ->
  Z.of_nat (length line) <= max_chars ->
  Forall (fun l => l <> [] /\ Z.of_nat (length l) <= max_chars)
    (wrap_loop max_chars line words).
Proof.
  intros Hw. revert line. induction Hw as [|w rest Hlen _ IH]; intros line Hline.
  - simpl. destruct line; [constructor|].
    constructor; [split; [discriminate|exact Hline]|constructor].
  - simpl. destruct (_ <=? max_chars) eqn:E.
    + apply IH. apply Z.leb_le in E.
      pose proof (length_strip (line ++ [space] ++ w)) as Hs.
      rewrite !length_app in Hs. simpl in Hs. lia.
    + apply Z.leb_gt in E. constructor.
      * split; [|exact Hline]. intros ->. simpl in E. lia.
      * apply IH. lia.
Qed.

(** X9. Wrapping loses no word and adds none: the words of the yielded
    lines, read in order, are the words of the text. *)
Theorem wrap_text_keeps_words (text : str) (max_chars : Z) :
  concat (str_split <$> _wrap_text text max_chars) = str_split text.
Proof.
  unfold _wrap_text. pose proof (str_split_words text) as Hw.
  destruct (str_split text) as [|w rest] eqn:E; [reflexivity|].
  by rewrite (wrap_loop_words max_chars [] (w :: rest) Hw).
Qed.

(** X10. Every yielded line is at most [max_chars] long, unless it is a
    single word of the text that is itself too long to fit. *)
Theorem wrap_text_line_bound (text : str) (max_chars : Z) :
  0 <= max_chars ->
  Forall (fun l => Z.of_nat (length l) <= max_chars \/
                   (l ∈ str_split text /\ max_chars <= Z.of_nat (length l)))
    (_wrap_text text max_chars).
Proof.
  intros Hmax.
  assert (H : Forall (fun l => Z.of_nat (length l) <= max_chars \/
                               l ∈ str_split text)
                (_wrap_text text max_chars)).
  { unfold _wrap_text. destruct (str_split text) as [|w rest] eqn:E.
    - constructor; [left; simpl; lia|constructor].
    - apply wrap_loop_bound; [left; simpl; lia|].
      apply Forall_forall. auto. }
  eapply Forall_impl; [exact H|]. intros l [Hl|Hl]; [by left|].
  destruct (Z.le_gt_cases (Z.of_nat (length l)) max_chars); [by left|].
  right. split; [exact Hl|lia].
Qed.

Lemma wrap_text_line_bound_example :
  _wrap_text (chars "area_decrease_pct:-10.0; redness:160.0") 30 =
    [ chars "area_decrease_pct:-10.0;";
      chars "redness:160.0" ] /\
  Forall (fun l => Z.of_nat (length l) <= 30 \/
            (l ∈ str_split
                   (chars "area_decrease_pct:-10.0; redness:160.0") /\
             30 <= Z.of_nat (length l)))
    (_wrap_text (chars "area_decrease_pct:-10.0; redness:160.0") 30).
Proof.
  split; [vm_compute; reflexivity|].
  apply (wrap_text_line_bound _ 30). lia.
Defined.

(** X11. When the text has a word and every word is shorter than
    [max_chars], no yielded line is empty and none is longer than
    [max_chars]. *)
Theorem wrap_text_short_words (text : str) (max_chars : Z) :
  str_split text <> [] ->
  Forall (fun w => Z.of_nat (length w) < max_chars) (str_split text) ->
  Forall (fun l => l <> [] /\ Z.of_nat (length l) <= max_chars)
    (_wrap_text text max_chars).
Proof.
  intros Hne Hw. unfold _wrap_text.
  destruct (str_split text) as [|w rest] eqn:E; [congruence|].
  apply wrap_loop_short; [exact Hw|].
  apply Forall_cons in Hw as [Hlen _]. simpl. lia.
Qed.

Lemma wrap_text_short_words_example :
  Forall (fun l => l <> [] /\ Z.of_nat (length l) <= 12)
    (_wrap_text (chars "  keep the  area clean ") 12).
Proof.
  apply wrap_text_short_words.
  - vm_compute. discriminate.
  - vm_compute. repeat constructor.
Defined.

(** X12. A first word that does not fit ([max_chars <= len(word)]) makes
    the generator yield an empty line first, then that word alone: the
    lines are not all words of the text, whatever the docstring says. *)
Theorem wrap_text_blank_first_line (text : str) (max_chars : Z)
    (w : str) (rest : list str) :
  str_split text = w :: rest ->
  max_chars <= Z.of_nat (length w) ->
  exists tail, _wrap_text text max_chars = [] :: w :: tail.
Proof.
  intros Hs Hlen. pose proof (str_split_words text) as Hw.
  unfold _wrap_text. rewrite Hs in *. apply Forall_cons in Hw as [[Hne _] _].
  cbn [wrap_loop length].
  destruct (Z.of_nat 0 + Z.of_nat (length w) + 1 <=? max_chars) eqn:E;
    [apply Z.leb_le in E; lia|].
  destruct rest as [|w2 rest].
  - exists []. simpl. destruct w; [congruence|reflexivity].
  - cbn [wrap_loop].
    destruct (Z.of_nat (length w) + Z.of_nat (length w2) + 1 <=? max_chars) eqn:E2;
      [apply Z.leb_le in E2; lia|].
    eexists. reflexivity.
Qed.

Lemma wrap_text_blank_first_line_example :
  _wrap_text (chars "area_decrease_pct:-10.0; ok") 10 =
    [ []; chars "area_decrease_pct:-10.0;";
      chars "ok" ].
Proof.
  destruct (wrap_text_blank_first_line
              (chars "area_decrease_pct:-10.0; ok") 10
              (chars "area_decrease_pct:-10.0;")
              [chars "ok"]) as [tail Ht];
    [vm_compute; reflexivity|vm_compute; discriminate|].
  vm_compute. reflexivity.
Defined.

End WrapText.

(** ** The UPDATE statement of [update_record_sqlite] *)

Section UpdateStatement.

Lemma count_char_append (c : ascii) (a b : string) :
  count_char c (a +:+ b) = (count_char c a + count_char c b)%nat.
Proof. induction a as [|x a IH]; simpl; [reflexivity|]. rewrite IH. lia. Qed.

Lemma count_char_join (c : ascii) (sep : string) (l : list string) :
  count_char c sep = 0%nat ->
  count_char c (join sep l) = sum_list (count_char c <$> l).
Proof.
  intros Hsep. induction l as [|s l IH]; [reflexivity|].
  destruct l as [|s' l].
  - simpl. lia.
  - change (join sep (s :: s' :: l)) with (s +:+ sep +:+ join sep (s' :: l)).
    rewrite !count_char_append, Hsep, IH. simpl. lia.
Qed.

(** X13. When no column name holds a question mark, the statement built
    for an update has exactly one placeholder per bound value, and the
    record id is bound last, after the field values in field order: also
    for an empty field dictionary, where the SET clause is empty. *)
Theorem update_statement_placeholders {V} (fields : list (string * V)) (record_id : V) :
  Forall (fun kv => count_char "?" kv.1 = 0%nat) fields ->
  count_char "?" (update_statement fields record_id).1 =
    length (update_statement fields record_id).2 /\
  (update_statement fields record_id).2 = (snd <$> fields) ++ [record_id] /\
  length (update_statement fields record_id).2 = S (length fields).
Proof.
  intros Hf. unfold update_statement. cbn [fst snd].
  rewrite !count_char_append, count_char_join by reflexivity.
  rewrite length_app, length_fmap. cbn [length].
  split; [|split; [reflexivity|lia]].
  change (count_char "?" "UPDATE records SET ") with 0%nat.
  change (count_char "?" " WHERE id = ?") with 1%nat.
  assert (Hsum : sum_list (count_char "?" <$>
                   ((fun kv : string * V => kv.1 +:+ " = ?") <$> fields)) =
                 length fields).
  { induction Hf as [|kv fields Hkv _ IH]; [reflexivity|].
    rewrite !fmap_cons. cbn [sum_list length].
    rewrite count_char_append, Hkv, IH. reflexivity. }
  rewrite Hsum. lia.
Qed.

Lemma update_statement_placeholders_example :
  update_statement [("rationale", 1%Z); ("timestamp", 2%Z)] 7%Z =
    ("UPDATE records SET rationale = ?, timestamp = ? WHERE id = ?",
     [1%Z; 2%Z; 7%Z]) /\
  count_char "?"
    (update_statement [("rationale", 1%Z); ("timestamp", 2%Z)] 7%Z).1 = 3%nat.
Proof.
  split; [reflexivity|].
  destruct (update_statement_placeholders
              [("rationale", 1%Z); ("timestamp", 2%Z)] 7%Z) as (Hc & _ & Hl).
  - repeat constructor.
  - rewrite Hc. exact Hl.
Defined.

End UpdateStatement.

(** ** The fallback rationale of llm.py *)

Section FallbackRationale.
Implicit Types (curr : gmap string value) (prev : option (gmap string value)).

(** X14. Without a model, the rationale for each status [decide_status]
    can return opens with ["Status: <status>."] and urges a prompt
    clinical review only when the status is [Urgent]; for [Concerning], as
    for [Stable] and [Monitor], it says that the wound appears stable. *)
Theorem fallback_urges_only_when_urgent (s : status) :
  fallback_lines (Some (status_name s)) =
    ("Status: " +:+ status_name s +:+ ".") ::
    (match s with
     | Urgent => urgent_advice
     | _ => routine_advice
     end) /\
  (contains "urgent assessment" (fallback_rationale (Some (status_name s))) = true
   <-> s = Urgent) /\
  (contains "appears stable" (fallback_rationale (Some (status_name s))) = true
   <-> s <> Urgent).
Proof.
  destruct s; (split; [reflexivity|]); split; split; intros Hx;
    first [ reflexivity | discriminate | congruence
          | vm_compute in Hx; discriminate Hx ].
Qed.

End FallbackRationale.

(** ** One analysis of the application *)

Section AnalyzeAndDecide.
Context `{Cv2}.
Local Open Scope float_scope.

(** X15. Once [analyze_image] has returned a dictionary, classifying it
    cannot fail on a first observation: the decision has [delta_pct = 0]
    and a status other than [Stable], and the quality flag is poor exactly
    when the measured blur variance is below 60 or the brightness below
    30. Against the dictionary of an earlier analysis the decision carries
    the area change of the two masks, whenever both areas convert to
    floats. *)
Theorem analysis_always_classifies (pil : pil_image) (m : metrics) :
  analyze_image pil default_target_size = Ok m ->
  (exists d : decision,
     analyze_and_decide pil None = Ok (m, d) /\
     d_delta_pct d = 0.0 /\
     d_status d <> Stable /\
     (d_quality d = QualityPoor <->
        (blur_var m <? 60.0) = true \/ (brightness m <? 30.0) = true)) /\
  (forall (earlier : metrics) (a c : float),
     float_of_int (area earlier) = Ok a ->
     float_of_int (area m) = Ok c ->
     exists d : decision,
       analyze_and_decide pil (Some (metrics_dict earlier)) = Ok (m, d) /\
       d_delta_pct d = (c - py_max 1.0 a) / py_max 1.0 a * 100.0).
Proof.
  intros Hm. unfold analyze_and_decide. rewrite Hm. cbn [bind]. split.
  - exists (decision_of 0.0 (redness m) (exudate_ratio m) (blur_var m) (brightness m)).
    split; [reflexivity|]. rewrite decide_fields.
    cbn [d_delta_pct d_status d_quality]. split; [reflexivity|]. split.
    + intros Hs. apply run_rules_status_table in Hs as [Hs _]. discriminate Hs.
    + rewrite run_rules_unfold. cbn [fst]. unfold quality_check.
      rewrite <- Bool.orb_true_iff.
      destruct ((blur_var m <? 60.0) || (brightness m <? 30.0))%bool;
        cbn [fst]; split; congruence.
  - intros earlier a c Ha Hc.
    assert (Hdelta : compute_delta_pct (metrics_dict m) (Some (metrics_dict earlier)) =
                     Ok ((c - py_max 1.0 a) / py_max 1.0 a * 100.0)).
    { apply compute_delta_pct_Some; [|exact Ha|exact Hc].
      by apply (lookup_nonempty _ "area" (PyInt (area earlier))). }
    rewrite (decide_status_ok _ _ _ (redness m) (exudate_ratio m) (blur_var m)
               (brightness m) Hdelta) by reflexivity.
    cbn [bind]. eexists. split; [reflexivity|].
    rewrite decide_fields. reflexivity.
Qed.

End AnalyzeAndDecide.

(** ** The further properties on sample inputs *)

Section ExtraExamples.
Local Open Scope float_scope.
Local Existing Instance Samples.cv_sample.

Lemma mask_is_binary_example :
  exists m : metrics,
    analyze_image (Samples.image (uniform 8 9 (200, 20, 20)%Z)) 512 = Ok m /\
    binary_mask (mask m) /\ (0 <= area m <= size (mask m))%Z.
Proof.
  destruct (analyze_image (Samples.image (uniform 8 9 (200, 20, 20)%Z)) 512)
    as [m|] eqn:Hm; [|vm_compute in Hm; discriminate Hm].
  exists m. split; [reflexivity|]. apply (mask_is_binary _ _ m Hm).
Defined.

Lemma within_cap_is_measured_example :
  exists m : metrics,
    analyze_image
      (Samples.image [[(200, 20, 20); (10, 10, 10)]; [(0, 0, 0); (255, 255, 255)]]%Z)
      512 = Ok m /\
    size (mask m) = 4%Z.
Proof.
  destruct (within_cap_is_measured 2 2
    (Samples.image [[(200, 20, 20); (10, 10, 10)]; [(0, 0, 0); (255, 255, 255)]]%Z)
    512) as (m & Hm & _ & Hs); try lia.
  - split; [reflexivity|]. repeat constructor.
  - exists m. split; [exact Hm|exact Hs].
Defined.

Lemma no_red_pixel_no_area_example :
  exists m : metrics,
    analyze_image
      (Samples.image [[(0, 0, 0); (10, 10, 10)]; [(90, 90, 90); (255, 255, 255)]]%Z)
      512 = Ok m /\
    area m = 0%Z /\ mask m = [[0; 0]; [0; 0]]%Z.
Proof.
  destruct (no_red_pixel_no_area 2 2
    (Samples.image [[(0, 0, 0); (10, 10, 10)]; [(90, 90, 90); (255, 255, 255)]]%Z)
    512) as (m & Hm & Hmask & Ha & _); try lia.
  - split; [reflexivity|]. repeat constructor.
  - repeat constructor; unfold red_dominant; cbn; lia.
  - exists m. split; [exact Hm|]. split; [exact Ha|exact Hmask].
Defined.

Lemma single_colour_all_or_nothing_example :
  exists m : metrics,
    analyze_image (Samples.image (uniform 3 4 (200, 20, 20)%Z)) 512 = Ok m /\
    area m = 12%Z /\ mask m = uniform 3 4 255%Z.
Proof.
  destruct (single_colour_all_or_nothing 3 4 (200, 20, 20)%Z "wound.png" 512)
    as (m & Hm & Hmask & Ha); try lia.
  exists m. split; [exact Hm|]. split; [exact Ha|exact Hmask].
Defined.

Lemma analysis_always_classifies_example :
  exists (m : metrics) (d : decision),
    analyze_and_decide (Samples.image (uniform 8 9 (200, 20, 20)%Z)) None =
      Ok (m, d) /\
    d_delta_pct d = 0.0 /\ d_status d <> Stable.
Proof.
  destruct (analyze_image (Samples.image (uniform 8 9 (200, 20, 20)%Z))
              default_target_size) as [m|] eqn:Hm;
    [|vm_compute in Hm; discriminate Hm].
  destruct (analysis_always_classifies _ m Hm) as [(d & Hd & H0 & Hs & _) _].
  exists m, d. split; [exact Hd|]. split; [exact H0|exact Hs].
Defined.

End ExtraExamples.

(** ** The downscaled size *)

(** A product of two small floats does not overflow: the rounded
    exponent stays far below the largest one. *)

Section NoOverflow.
Local Open Scope Z_scope.

Lemma shr_1_le (mrs : shr_record) :
  0 <= shr_m mrs -> shr_m (shr_1 mrs) <= shr_m mrs.
Proof. destruct mrs as [[|[p|p|]|[p|p|]] r s]; simpl; lia. Qed.

Lemma iter_shr_1_le (p : positive) (mrs : shr_record) :
  0 <= shr_m mrs ->
  0 <= shr_m (SpecFloat.iter_pos shr_1 p mrs) <= shr_m mrs.
Proof.
  revert mrs. induction p as [p IH|p IH|]; simpl; intros mrs Hm.
  - pose proof (shr_1_le mrs Hm) as H1.
    pose proof (shr_1_nonneg mrs Hm) as H0.
    pose proof (IH _ H0) as [H2 H3]. pose proof (IH _ H2) as [H4 H5]. lia.
  - pose proof (IH _ Hm) as [H2 H3]. pose proof (IH _ H2) as [H4 H5]. lia.
  - pose proof (shr_1_le mrs Hm). pose proof (shr_1_nonneg mrs Hm). lia.
Qed.

Lemma digits2_pos_size (p : positive) : digits2_pos p = Pos.size p.
Proof. induction p; simpl; congruence. Qed.

Lemma Zdigits2_bound (m k : Z) : 0 <= m < 2 ^ k -> 0 <= k -> Zdigits2 m <= k.
Proof.
  intros [H0 Hm] Hk. destruct m as [|p|p]; simpl; try lia.
  rewrite digits2_pos_size.
  pose proof (Pos.size_le p) as Hs.
  assert (Hz : 2 ^ Z.pos (Pos.size p) <= 2 * Z.pos p).
  { rewrite <- Pos2Z.inj_pow. change (2 * Z.pos p) with (Z.pos p~0). lia. }
  destruct (Z.le_gt_cases (Z.pos (Pos.size p)) k) as [|Hgt]; [done|].
  assert (H : 2 ^ (k + 1) <= 2 ^ Z.pos (Pos.size p))
    by (apply Z.pow_le_mono_r; lia).
  rewrite Z.pow_add_r in H by lia. lia.
Qed.

Lemma Zdigits2_lower (p : positive) : Z.pos p < 2 ^ Zdigits2 (Z.pos p).
Proof.
  simpl. rewrite digits2_pos_size. pose proof (Pos.size_gt p).
  rewrite <- Pos2Z.inj_pow. lia.
Qed.

Lemma shr_fexp_bounds (m e : Z) (l : location) (k : Z) :
  0 <= m < 2 ^ k -> 0 <= k ->
  0 <= shr_m (shr_fexp prec emax m e l).1 <= m /\
  (shr_fexp prec emax m e l).2 <= Z.max (e + k - prec) (Z.max e (3 - emax - prec)).
Proof.
  intros Hm Hk. unfold shr_fexp, shr.
  pose proof (Zdigits2_bound m k Hm Hk) as Hd.
  assert (H0 : shr_m (shr_record_of_loc m l) = m) by (destruct l as [|[]]; done).
  unfold fexp, SpecFloat.emin.
  destruct (Z.max (Zdigits2 m + e - prec) (3 - emax - prec) - e) eqn:E; simpl.
  - rewrite H0. lia.
  - pose proof (iter_shr_1_le p (shr_record_of_loc m l)) as Hi.
    rewrite H0 in Hi. split; [lia|]. lia.
  - rewrite H0. lia.
Qed.

Lemma round_nearest_even_le (m : Z) (l : location) :
  0 <= m -> 0 <= round_nearest_even m l <= m + 1.
Proof.
  intros Hm. destruct l as [|[]]; simpl; try destruct (Z.even m); lia.
Qed.

Lemma binary_round_aux_finite (s : bool) (m e : Z) (l : location) :
  0 <= m < 2 ^ 106 -> e <= 0 ->
  forall s', binary_round_aux prec emax s m e l <> S754_infinity s'.
Proof.
  intros Hm He s'. unfold binary_round_aux.
  pose proof (shr_fexp_bounds m e l 106 Hm ltac:(lia)) as [H1 H1e].
  destruct (shr_fexp prec emax m e l) as [mrs' e']. simpl in H1, H1e.
  pose proof (round_nearest_even_le _ (loc_of_shr_record mrs') (proj1 H1)) as Hr.
  assert (Hr' : 0 <= round_nearest_even (shr_m mrs') (loc_of_shr_record mrs')
                  < 2 ^ 107).
  { change (2 ^ 107) with (2 * 2 ^ 106). lia. }
  pose proof (shr_fexp_bounds _ e' loc_Exact 107 Hr' ltac:(lia)) as [H2 H2e].
  destruct (shr_fexp prec emax _ e' loc_Exact) as [mrs'' e'']. simpl in H2, H2e.
  destruct (shr_m mrs''); [discriminate| |discriminate].
  destruct (e'' <=? emax - prec) eqn:E; [discriminate|].
  apply Z.leb_gt in E. unfold prec, emax in *. lia.
Qed.

Lemma valid_mantissa (s : bool) (m : positive) (e : Z) :
  valid_binary (S754_finite s m e) = true -> Z.pos m < 2 ^ 53.
Proof.
  unfold valid_binary, bounded, canonical_mantissa. intros H.
  apply andb_prop in H as [H _]. apply Z.eqb_eq in H.
  unfold fexp, SpecFloat.emin in H.
  pose proof (Zdigits2_lower m) as Hl. simpl Zdigits2 in Hl.
  assert (Z.pos (digits2_pos m) <= 53) by (unfold prec in H; lia).
  eapply Z.lt_le_trans; [exact Hl|]. apply Z.pow_le_mono_r; lia.
Qed.

Lemma mul_small (x y : float) :
  small x = true -> small y = true ->
  Prim2SF (x * y) <> S754_nan /\ forall s, Prim2SF (x * y) <> S754_infinity s.
Proof.
  unfold small. intros Hx Hy. rewrite FloatAxioms.mul_spec.
  pose proof (Prim2SF_valid x) as Vx. pose proof (Prim2SF_valid y) as Vy.
  destruct (Prim2SF x) as [sx|sx| |sx mx ex]; try discriminate;
  destruct (Prim2SF y) as [sy|sy| |sy my ey]; try discriminate;
    try (split; [|intros s]; discriminate).
  apply Z.leb_le in Hx, Hy. apply valid_mantissa in Vx, Vy.
  unfold SF64mul, SFmul.
  assert (Hm : 0 <= Z.pos (mx * my) < 2 ^ 106).
  { rewrite Pos2Z.inj_mul. change (2 ^ 106) with (2 ^ 53 * 2 ^ 53). nia. }
  split; [|intros s].
  - apply binary_round_aux_not_nan. lia.
  - apply binary_round_aux_finite; [exact Hm|lia].
Qed.

Lemma py_int_mul_small (x y : float) :
  small x = true -> small y = true -> py_int (x * y) = Ok (trunc (x * y)).
Proof.
  intros Hx Hy. destruct (mul_small x y Hx Hy) as [Hnan Hinf].
  unfold py_int. destruct (Prim2SF (x * y)) as [s|s| |s m e]; try done.
  by destruct (Hinf s).
Qed.

End NoOverflow.

Section ScaledSize.
Context `{Cv2}.
Local Open Scope Z_scope.

Lemma lands_on_cap_checked :
  all_from lands_on_cap (Z.to_nat (max_side - 512)) 513 = true.
Proof. vm_compute. reflexivity. Qed.

Lemma side_is_small_checked :
  all_from side_is_small (Z.to_nat (max_side + 1)) 0 = true.
Proof. vm_compute. reflexivity. Qed.

Lemma float_of_small (side : Z) :
  0 <= side <= max_side -> small (float_of side) = true.
Proof.
  intros Hs.
  pose proof (all_from_spec _ _ _ side_is_small_checked side) as Hc.
  rewrite Z2Nat.id in Hc by (unfold max_side; lia).
  specialize (Hc ltac:(lia)). unfold side_is_small in Hc.
  assert (Hb : max_side < 2 ^ 62) by reflexivity.
  rewrite float_of_prim_eq by lia. exact Hc.
Qed.

Lemma scaled_longer_side (m : Z) :
  512 < m <= max_side ->
  (float_of m =? 0)%float = false /\
  small (float_of 512 / float_of m)%float = true /\
  (trunc (float_of m * (float_of 512 / float_of m))%float = 511 \/
   trunc (float_of m * (float_of 512 / float_of m))%float = 512).
Proof.
  intros Hm.
  pose proof (all_from_spec _ _ _ lands_on_cap_checked m) as Hc.
  rewrite Z2Nat.id in Hc by (unfold max_side; lia).
  specialize (Hc ltac:(lia)). unfold lands_on_cap, scaled_side in Hc.
  apply andb_prop in Hc as [Hc Hs]. apply andb_prop in Hc as [Hnz Hsm].
  assert (Hb : max_side < 2 ^ 62) by reflexivity.
  rewrite !float_of_prim_eq by (split; [lia|]; try lia; reflexivity).
  split; [by apply Bool.negb_true_iff|]. split; [exact Hsm|].
  apply Bool.orb_true_iff in Hs as [Hs|Hs]; apply Z.eqb_eq in Hs; auto.
Qed.

(** X16. Downscaling with the default cap does not always reach the cap.
    For an image whose longer side is between 513 and 65535 pixels the new
    width and height are computed without error, and the longer side
    becomes 512 or 511: [int()] truncates a product that can fall just
    below 512. A 561 by 561 image becomes 511 by 511. *)
Theorem downscaled_longer_side (h w : Z) :
  0 <= h -> 0 <= w ->
  512 < Z.max h w <= max_side ->
  exists new_w new_h,
    scaled_dims h w default_target_size = Ok (new_w, new_h) /\
    (w <= h -> new_h = 511 \/ new_h = 512) /\
    (h <= w -> new_w = 511 \/ new_w = 512) /\
    scaled_dims 561 561 default_target_size = Ok (511, 511).
Proof.
  intros Hh Hw Hm.
  destruct (scaled_longer_side (Z.max h w) Hm) as (Hnz & Hsm & Hside).
  unfold scaled_dims at 1. unfold default_target_size, truediv.
  rewrite Hnz. cbn [bind].
  set (scale := (float_of 512 / float_of (Z.max h w))%float) in *.
  rewrite (py_int_mul_small (float_of w) scale)
    by (try apply float_of_small; try done; lia).
  rewrite (py_int_mul_small (float_of h) scale)
    by (try apply float_of_small; try done; lia).
  cbn [bind]. eexists _, _. split; [reflexivity|].
  split; [|split].
  - intros Hwh. by rewrite Z.max_l in Hside by lia.
  - intros Hhw. by rewrite Z.max_r in Hside by lia.
  - vm_compute. reflexivity.
Qed.

Lemma downscaled_longer_side_example :
  exists new_w new_h,
    scaled_dims 600 800 default_target_size = Ok (new_w, new_h) /\
    (800 <= 600 -> new_h = 511 \/ new_h = 512) /\
    (600 <= 800 -> new_w = 511 \/ new_w = 512) /\
    scaled_dims 561 561 default_target_size = Ok (511, 511).
Proof.
  apply (downscaled_longer_side 600 800); unfold max_side; lia.
Defined.

End ScaledSize.

(** ** The same image analysed twice *)

Section RepeatedAnalysis.
Context `{Cv2}.
Local Open Scope float_scope.

Lemma steady_area_checked :
  all_from steady_area (Z.to_nat max_pixels) 1 = true.
Proof. vm_compute. reflexivity. Qed.

Lemma float_of_int_finite (n : Z) :
  isfinite (float_of n) = true -> float_of_int n = Ok (float_of n).
Proof.
  unfold float_of_int, float_of, isfinite.
  destruct (binary_normalize prec emax n 0 false) as [s|s| |s m e];
    try reflexivity.
  destruct s; vm_compute; discriminate.
Qed.

Lemma positive_zero_eq (x : float) : positive_zero x = true -> x = 0.0.
Proof.
  unfold positive_zero. intros Hx. apply Prim2SF_inj.
  destruct (Prim2SF x) as [[]|s| |s m e]; try discriminate. reflexivity.
Qed.

Lemma unchanged_area_delta (n : Z) :
  (1 <= n <= max_pixels)%Z ->
  float_of_int n = Ok (float_of n) /\
  (float_of n - py_max 1.0 (float_of n)) / py_max 1.0 (float_of n) * 100.0 = 0.0.
Proof.
  intros Hn.
  pose proof (all_from_spec _ _ _ steady_area_checked n) as Hc.
  rewrite Z2Nat.id in Hc by (unfold max_pixels; lia).
  specialize (Hc ltac:(lia)). unfold steady_area, unchanged_delta in Hc.
  apply andb_prop in Hc as [Hfin Hzero].
  assert (Hb : (max_pixels < 2 ^ 62)%Z) by reflexivity.
  rewrite <- float_of_prim_eq in Hfin, Hzero by lia.
  split; [by apply float_of_int_finite|by apply positive_zero_eq].
Qed.

(** X17. The same image analysed twice in a row, the second time against
    the dictionary of the first. With a mask area of at least 1 (and at
    most 512 x 512) the area change is exactly 0 and the status is never
    [Stable]. With an empty mask the previous area is raised to 1 but the
    current one is not, so the change is -100 percent: the status is
    never [Monitor], and it is [Stable] whenever redness is at most 120. *)
Theorem same_image_twice (pil : pil_image) (m : metrics) :
  analyze_image pil default_target_size = Ok m ->
  (area m <= max_pixels)%Z ->
  exists d : decision,
    analyze_and_decide pil (Some (metrics_dict m)) = Ok (m, d) /\
    ((1 <= area m)%Z -> d_delta_pct d = 0.0 /\ d_status d <> Stable) /\
    (area m = 0%Z ->
     d_delta_pct d = -100.0 /\ d_status d <> Monitor /\
     (d_status d = Stable <-> (120.0 <? redness m) = false)).
Proof.
  intros Hm Hmax.
  assert (H0 : (0 <= area m)%Z).
  { apply analyze_image_inv in Hm as (img & _ & Hmeasure).
    apply measure_inv in Hmeasure as (_ & _ & -> & _). apply count_bounds. }
  assert (Hne : metrics_dict m <> ∅)
    by apply (lookup_nonempty _ "area" (PyInt (area m))), eq_refl.
  assert (Ha : exists a delta,
            float_of_int (area m) = Ok a /\
            delta = (a - py_max 1.0 a) / py_max 1.0 a * 100.0 /\
            ((1 <= area m)%Z -> delta = 0.0) /\
            (area m = 0%Z -> delta = -100.0)).
  { destruct (Z.eq_dec (area m) 0%Z) as [E|E].
    - rewrite E. eexists _, _. split; [reflexivity|]. split; [reflexivity|].
      split; [lia|]. intros _. vm_compute. reflexivity.
    - destruct (unchanged_area_delta (area m) ltac:(lia)) as [Hf Hz].
      eexists _, _. split; [exact Hf|]. split; [reflexivity|]. split; [|lia].
      intros _. exact Hz. }
  destruct Ha as (a & delta & Hfa & -> & Hsteady & Hempty).
  unfold analyze_and_decide. rewrite Hm. cbn [bind].
  rewrite (decide_status_ok _ _ _ (redness m) (exudate_ratio m) (blur_var m)
             (brightness m)
             (compute_delta_pct_Some (metrics_dict m) (metrics_dict m) a a
                Hne Hfa Hfa)) by reflexivity.
  cbn [bind]. eexists. split; [reflexivity|].
  rewrite decide_fields. cbn [d_delta_pct d_status].
  pose proof (run_rules_status_table
    ((a - py_max 1.0 a) / py_max 1.0 a * 100.0)
    (redness m) (exudate_ratio m) (blur_var m) (brightness m)) as Htable.
  cbv zeta in Htable. destruct Htable as (_ & Hstable & _ & Hmonitor).
  split.
  - intros Hpos. rewrite (Hsteady Hpos) in *. split; [reflexivity|].
    intros Hs. apply Hstable in Hs as [Hs _]. discriminate Hs.
  - intros Hz. rewrite (Hempty Hz) in *. split; [reflexivity|]. split.
    + intros Hs. apply Hmonitor in Hs as (_ & Hs & _). discriminate Hs.
    + rewrite Hstable. split; [tauto|]. intros Hr. split; [reflexivity|exact Hr].
Qed.

End RepeatedAnalysis.

Section RepeatedAnalysisExample.
Local Open Scope float_scope.
Local Existing Instance Samples.cv_sample.

Lemma same_image_twice_example :
  exists (m : metrics) (d : decision),
    analyze_and_decide (Samples.image (uniform 2 2 (90, 90, 90)%Z))
      (Some (metrics_dict m)) = Ok (m, d) /\
    area m = 0%Z /\ d_delta_pct d = -100.0 /\ d_status d = Stable.
Proof.
  destruct (analyze_image (Samples.image (uniform 2 2 (90, 90, 90)%Z))
              default_target_size) as [m|] eqn:Hm;
    [|vm_compute in Hm; discriminate Hm].
  assert (Ha : area m = 0%Z /\ (120.0 <? redness m) = false).
  { assert (Hm' := Hm). vm_compute in Hm'. injection Hm' as <-.
    split; reflexivity. }
  destruct Ha as [Ha Hr].
  destruct (same_image_twice _ m Hm) as (d & Hd & _ & Hempty).
  { rewrite Ha. unfold max_pixels. lia. }
  destruct (Hempty Ha) as (Hdelta & _ & Hstable).
  exists m, d. split; [exact Hd|]. split; [exact Ha|].
  split; [exact Hdelta|]. apply Hstable, Hr.
Defined.

End RepeatedAnalysisExample.
